(* ===== verification/_CoqProject ===== *)
-Q . S2P
Prelude.v
MachineInt.v
Storage.v
Pallet.v
Executive.v
Invariant.v
Events.v
Runs.v
Ledger.v
Findings.v
