(* ===== verification/Prelude.v ===== *)
(** * A verification development of the [game] pallet (fighter registry)

    The program is the FRAME pallet [src/pallets/game/src/lib.rs]: a ledger
    of game entities ("fighters") kept in the storage of a Substrate runtime.
    Its parts and how they interact:
    - the id allocator: the [StorageValue] [NextFighterId] (a [u32] with the
      [ValueQuery] default [GetDefaultValue () = 0]) read by [get_next_id],
      which refuses the value [u32::MAX], and advanced by [create];
    - the entity store: the [StorageMap] [Fighters] from [FighterIndex] to
      [Fighter([hp, atk, def])], written only by [create] and read by
      [get_fighter];
    - the ownership store: the [StorageMap] [FighterOwner], written by
      [create] and overwritten by [transfer] after its owner check;
    - the event sink of [frame_system] ([deposit_event]) and the signed
      origin of [ensure_signed], supplied by the host.
    The two dispatchable calls [create] and [transfer] validate their
    inputs against the stores (in the order of the code, the first failure
    wins), then write.

    Files, in dependency order (see [_CoqProject]); the theorems named
    C<n> are the properties of the development:
    - [Prelude] (this file): the Rust-like [result] type, a state-and-error
      monad [St] with its notation in [st_scope] ([st_lift] is Rust's [?],
      [st_ensure] is [ensure!]), the reflexive-transitive closure [star] of
      a step relation with its induction principle [star_ind_inv], and the
      hint database [pallet].
    - [MachineInt]: [u16]/[u32] as [Z] with their ranges; the two meanings
      of Rust's [+] and [*] on fixed-width integers as one interface, the
      class [ArithSem] with its laws [ArithSemLaws], implemented by
      [wrapping_sem] (release builds: overflow wraps modulo [2^w], the
      default of a Substrate runtime) and [checked_sem] (debug builds or
      [overflow-checks = true]: overflow panics); [power_total], the
      expression [hp + atk * 10 + def * 10] of [create] (lib.rs line 77)
      evaluated operation by operation in [u16], and its value under each
      semantics ([power_total_wrapping], [power_total_checked]).
    - [Storage]: [Fighter], [Event], the storage record [Storage] with the
      fields [NextFighterId], [Fighters], [FighterOwner] and the event list
      of [frame_system], its getters (with the [ValueQuery] default) and
      its writes, from the [#[pallet::storage]] declarations.
    - [Pallet]: [Error], [ensure_signed], [get_next_id], [get_fighter],
      [create], [transfer] and [dispatch] over [Call], in the [St] monad,
      statement by statement; the tactic [pallet_run] that runs a call;
      the declared weights [create_weight], [transfer_weight] (lib.rs
      lines 74 and 90) and [call_weight].
      Theorems: every branch of each call, errors included ([create_ok],
      [create_total_overflow], [create_def_overflow], [transfer_ok],
      [transfer_unknown], [transfer_not_owner], [transfer_revokes],
      [transfer_self_noop], [transfer_no_event]); atomicity of [create]
      ([create_atomic]: a failing call has written nothing); the exact set
      of stats a release build accepts ([create_wrapping_accepts]).
    - [Executive] (modelled from spec section 6 and FRAME, not in the
      repository): [apply_extrinsic] (rollback on error, a panic rejects
      the extrinsic), [apply_block], and the step relation [step] of
      applied extrinsics with [reachable := star step genesis]; block
      authoring under the block weight limit ([build_block], after
      [frame_system]'s [CheckWeight]), whose runs are runs of [step]
      ([build_block_star]).  Theorem: the rollback layer is redundant for
      this pallet ([apply_extrinsic_plain_eq]).
    - [Invariant]: [wf] (the counter is a [u32], the keys of both maps are
      exactly [ids_below next]), preserved by every step and so true of
      every reachable storage ([reachable_wf], by rule induction); its
      consequences: monotonicity and immutability along runs
      ([star_monotone]), freshness of allocated ids ([create_fresh]),
      permanence of exhaustion ([exhaustion_permanent]).
    - [Events]: the event log replayed by an indexer ([replay_fighters],
      [replay_owners]): the log is the creation log and rebuilds
      [Fighters] ([reachable_events_replay]), it only grows, by at most one
      event per extrinsic ([step_events_append_only]), and it does not
      determine the owners ([events_lose_owner]).
    - [Runs]: liveness ([can_exhaust]: from every reachable storage the id
      space can be used up), order independence of transfers of distinct
      fighters ([transfers_commute]) and of a [create] and a transfer of
      an existing fighter ([create_transfer_commute]), and totality of
      block application in a release build ([apply_block_wrapping_total]).
    - [Ledger]: the abstract specification of spec.md, a list of
      (fighter, owner) pairs indexed by id with [spec_create] and
      [spec_transfer], the relation [refines] and the refinement theorems
      [create_refines] (for inputs whose power does not wrap) and
      [transfer_refines]; every run whose calls do not wrap, in either
      build, is simulated by spec steps ([no_wrap_runs_refine]), so in a
      debug build every reachable storage refines a ledger reachable by
      spec steps ([reachable_refines_checked]); composed with block
      authoring, every block built from such candidates moves the ledger
      by spec transitions ([authored_blocks_refine]).
    - [Findings]: the wrap-around bug of the power check in a release build
      ([wrapping_budget_violated]), the panic in a debug build
      (concretely [checked_overflow_traps]) and exactly when a debug build traps
      ([checked_traps_iff]), lifted to blocks: a debug build rejects a
      block exactly when one of its extrinsics traps
      ([checked_block_traps_iff]); and the budget invariant of a debug
      build ([reachable_budget_checked]).

    Bounds and fuel: no code of the pallet loops, so no definition needs
    fuel; [apply_block] and [build_block] recurse structurally on the list,
    and [can_exhaust] is proved by induction on the number of ids left
    ([u32::MAX] minus the counter), not by running the [2^32] steps.
    Integers stay at their width: [u16] stats and [u32] ids are [Z] values
    with the range predicates [is_u16]/[is_u32], and each arithmetic
    operation of the code goes through [arith_result] at its width.
    Accounts are a type with decidable equality ([AccountId]), the
    concrete runs use [nat].

    Not modelled: the [Randomness] type of [Config] and the commented-out
    helper [random_value] (no call uses them; spec.md puts them
    out of scope), the rest of [Config] (it only supplies types:
    [T::AccountId] is the parameter [AccountId] of every file), the fees
    charged for the weights (they do not affect the pallet's storage), the
    per-extrinsic base weight (a parameter of [build_block]), the SCALE
    encoding of call arguments and of the stored values and the hashed
    storage keys ([Blake2_128Concat], [twox_128]): they are code of the
    [parity-scale-codec] and [frame_support] libraries whose properties do
    not depend on this pallet ([step] only assumes that decoded arguments
    are in range), the storage trie, and the host's consensus,
    networking and persistence, which spec.md leaves to the runtime. *)

From stdpp Require Export base list option gmap.
From Stdlib Require Export ZArith Lia.

Open Scope Z_scope.

(** ** Rust's [Result] *)

Inductive result (E A : Type) : Type :=
| Ok (a : A)
| Err (e : E).
Arguments Ok {E A} a.
Arguments Err {E A} e.

(** [Result::map_err] *)
Definition map_err {E E' A} (f : E -> E') (r : result E A) : result E' A :=
  match r with
  | Ok a => Ok a
  | Err e => Err (f e)
  end.

(** ** A state-and-error monad

    A computation reads and writes a state of type [S] and either returns a
    value or stops with an error.  As in Rust, an error does not undo the
    writes made before it: the returned state is the state at the point of
    failure.  Whether the host keeps or discards that state is the business
    of the caller (see [Executive]). *)

Definition St (S E A : Type) : Type := S -> result E A * S.

Definition st_ret {S E A} (a : A) : St S E A := fun s => (Ok a, s).

Definition st_bind {S E A B} (c : St S E A) (k : A -> St S E B) : St S E B :=
  fun s =>
    match c s with
    | (Ok a, s') => k a s'
    | (Err e, s') => (Err e, s')
    end.

Definition st_gets {S E A} (f : S -> A) : St S E A := fun s => (Ok (f s), s).

Definition st_modify {S E} (f : S -> S) : St S E unit := fun s => (Ok tt, f s).

Definition st_raise {S E A} (e : E) : St S E A := fun s => (Err e, s).

(** The [?] operator of Rust on a [Result] whose error is converted. *)
Definition st_lift {S E E' A} (f : E' -> E) (r : result E' A) : St S E A :=
  match r with
  | Ok a => st_ret a
  | Err e => st_raise (f e)
  end.

(** The [ensure!] macro of FRAME. *)
Definition st_ensure {S E} (b : bool) (e : E) : St S E unit :=
  if b then st_ret tt else st_raise e.

Declare Scope st_scope.
Delimit Scope st_scope with st.
Notation "x <- c1 ;; c2" := (st_bind c1 (fun x => c2))
  (at level 100, c1 at next level, right associativity) : st_scope.
Notation "c1 ;; c2" := (st_bind c1 (fun _ => c2))
  (at level 100, right associativity) : st_scope.

(** ** Integers *)

(** Congruence modulo [m] is compatible with addition. *)
Lemma Zmod_add_congr a a' b b' m :
  a mod m = a' mod m -> b mod m = b' mod m -> (a + b) mod m = (a' + b') mod m.
Proof. intros Ha Hb. by rewrite Zplus_mod, Ha, Hb, <- Zplus_mod. Qed.

(** ** Sequences of transitions *)

Section Star.
Context {A : Type} (R : A -> A -> Prop).

Inductive star : A -> A -> Prop :=
| star_refl a : star a a
| star_step a b c : R a b -> star b c -> star a c.

Lemma star_one a b : R a b -> star a b.
Proof. eauto using star. Qed.

Lemma star_trans a b c : star a b -> star b c -> star a c.
Proof. induction 1; eauto using star. Qed.

(** A property preserved by every step holds along every sequence. *)
Lemma star_ind_inv (P : A -> Prop) :
  (forall a b, P a -> R a b -> P b) -> forall a b, star a b -> P a -> P b.
Proof. intros Hstep a b Hs. induction Hs; eauto. Qed.

End Star.

(** A sequence of [R]-steps is a sequence of steps of any coarser
    relation. *)
Lemma star_mono {A} (R R' : A -> A -> Prop) :
  (forall a b, R a b -> R' a b) -> forall a b, star R a b -> star R' a b.
Proof. intros HR a b Hs. induction Hs; econstructor; eauto. Qed.

(** ** Automation *)

Create HintDb pallet discriminated.
#[export] Hint Resolve star_refl star_one : pallet.
