(* ===== verification/MachineInt.v ===== *)
(** * Fixed-width integers of the pallet

    [u16] (the fighter attributes) and [u32] ([FighterIndex]) are [Z] with
    their ranges.  Rust gives [+] and [*] on them two meanings, chosen by
    the build profile: in a release build (the profile of a Substrate
    runtime, where [overflow-checks] is off) an overflowing result wraps
    modulo [2^w]; in a debug build, or with [overflow-checks = true], it
    panics.  The class [ArithSem] is the interface the pallet's model is
    written against: [arith_result w z] turns the exact result [z] of an
    operation on [w]-bit operands into the value the program sees, or into
    [None] for a panic.  [ArithSemLaws] is what the pallet's theorems may
    assume of it; [wrapping_sem] and [checked_sem] implement it.

    The power formula [hp + atk * 10 + def * 10] of [create]
    (lib.rs line 77) is [power_total]. *)

From S2P Require Import Prelude.

Definition u16_modulus : Z := 2 ^ 16.
Definition u32_modulus : Z := 2 ^ 32.
(** [FighterIndex::MAX] *)
Definition u32_MAX : Z := u32_modulus - 1.

Definition in_width (w z : Z) : bool := (0 <=? z) && (z <? 2 ^ w).
Definition is_u16 (z : Z) : bool := in_width 16 z.
Definition is_u32 (z : Z) : bool := in_width 32 z.

Class ArithSem : Type := arith_result : Z -> Z -> option Z.

Class ArithSemLaws (sem : ArithSem) : Prop := {
  (** a result that fits is seen as it is *)
  arith_exact : forall w z, 0 <= w -> in_width w z = true -> arith_result w z = Some z;
  (** whatever is seen fits the width and agrees with the exact result
      modulo [2^w] *)
  arith_in_width : forall w z r, 0 <= w -> arith_result w z = Some r -> in_width w r = true;
  arith_congruent : forall w z r, 0 <= w -> arith_result w z = Some r -> r mod 2 ^ w = z mod 2 ^ w
}.

(** Release build: two's complement wrap-around. *)
Definition wrapping_sem : ArithSem := fun w z => Some (z mod 2 ^ w).

(** Debug build: [attempt to add with overflow] panics. *)
Definition checked_sem : ArithSem := fun w z => if in_width w z then Some z else None.

Section Ops.
Context `{sem : ArithSem}.

Definition add_u16 (a b : Z) : option Z := arith_result 16 (a + b).
Definition mul_u16 (a b : Z) : option Z := arith_result 16 (a * b).
Definition add_u32 (a b : Z) : option Z := arith_result 32 (a + b).

(** [hp + atk * 10 + def * 10], evaluated as Rust does:
    [(hp + (atk * 10)) + (def * 10)], left operand first. *)
Definition power_total (hp atk def : Z) : option Z :=
  mul_u16 atk 10 ≫= fun a =>
  add_u16 hp a ≫= fun s1 =>
  mul_u16 def 10 ≫= fun d =>
  add_u16 s1 d.
End Ops.

(** The mathematical value of the power formula. *)
Definition power (hp atk def : Z) : Z := hp + atk * 10 + def * 10.

(** ** Lemmas *)

Lemma in_width_spec w z : in_width w z = true <-> 0 <= z < 2 ^ w.
Proof. unfold in_width. rewrite andb_true_iff, Z.leb_le, Z.ltb_lt. lia. Qed.

Lemma is_u16_spec z : is_u16 z = true <-> 0 <= z < 65536.
Proof. apply in_width_spec. Qed.

Lemma is_u32_spec z : is_u32 z = true <-> 0 <= z < 4294967296.
Proof. apply in_width_spec. Qed.

Lemma u32_MAX_eq : u32_MAX = 4294967295.
Proof. reflexivity. Qed.

#[export] Instance wrapping_laws : ArithSemLaws wrapping_sem.
Proof.
  split; unfold arith_result, wrapping_sem.
  - intros w z Hw Hz%in_width_spec. f_equal. by apply Z.mod_small.
  - intros w z r Hw [= <-]. apply in_width_spec, Z.mod_pos_bound.
    apply Z.pow_pos_nonneg; lia.
  - intros w z r Hw [= <-]. apply Z.mod_mod. apply Z.pow_nonzero; lia.
Qed.

#[export] Instance checked_laws : ArithSemLaws checked_sem.
Proof.
  split; unfold arith_result, checked_sem.
  - intros w z Hw ->. done.
  - intros w z r Hw. destruct (in_width w z) eqn:E; [by intros [= <-]|done].
  - intros w z r Hw. destruct (in_width w z); [by intros [= <-]|done].
Qed.

Section Laws.
Context `{sem : ArithSem} `{!ArithSemLaws sem}.

Lemma add_u32_exact a b : 0 <= a + b < 2 ^ 32 -> add_u32 a b = Some (a + b).
Proof. intros H. apply arith_exact; [lia|by apply in_width_spec]. Qed.

(** Under any lawful semantics, the power formula is computed exactly
    when its true value fits in a [u16]. *)
Lemma power_total_exact hp atk def :
  0 <= hp -> 0 <= atk -> 0 <= def -> power hp atk def < u16_modulus ->
  power_total hp atk def = Some (power hp atk def).
Proof.
  unfold power, u16_modulus. intros. unfold power_total, mul_u16, add_u16.
  rewrite (arith_exact 16 (atk * 10)); [simpl|lia|apply in_width_spec; lia].
  rewrite (arith_exact 16 (hp + atk * 10)); [simpl|lia|apply in_width_spec; lia].
  rewrite (arith_exact 16 (def * 10)); [simpl|lia|apply in_width_spec; lia].
  apply arith_exact; [lia|apply in_width_spec; lia].
Qed.

(** Whatever value the program sees agrees with the true value modulo
    [2^16]. *)
Lemma power_total_congruent hp atk def r :
  power_total hp atk def = Some r ->
  is_u16 r = true /\ r mod u16_modulus = power hp atk def mod u16_modulus.
Proof.
  unfold power_total, mul_u16, add_u16, power, u16_modulus.
  destruct (arith_result 16 (atk * 10)) as [a|] eqn:Ha; [|done]; simpl.
  destruct (arith_result 16 (hp + a)) as [s1|] eqn:Hs; [|done]; simpl.
  destruct (arith_result 16 (def * 10)) as [d|] eqn:Hd; [|done]; simpl.
  intros Hr. split; [eapply arith_in_width; eauto; lia|].
  apply arith_congruent in Ha, Hs, Hd, Hr; try lia.
  rewrite Hr. apply Zmod_add_congr; [|done].
  rewrite Hs. apply Zmod_add_congr; [done|done].
Qed.
End Laws.

(** ** The power formula under the two build profiles *)

(** Release build: the value seen is the true value modulo [2^16]. *)
Lemma power_total_wrapping hp atk def :
  power_total (sem := wrapping_sem) hp atk def
  = Some (power hp atk def mod u16_modulus).
Proof.
  destruct (power_total (sem := wrapping_sem) hp atk def) as [r|] eqn:E.
  - apply power_total_congruent in E as [Hr E].
    apply is_u16_spec in Hr. rewrite <- E, Z.mod_small; [done|].
    unfold u16_modulus. simpl. lia.
  - revert E. by unfold power_total, mul_u16, add_u16, arith_result, wrapping_sem.
Qed.

(** Debug build: the formula panics exactly when one of its partial results
    leaves the [u16] range, which for [u16] operands is when the true value
    does. *)
Lemma power_total_checked hp atk def :
  0 <= hp -> 0 <= atk -> 0 <= def ->
  power_total (sem := checked_sem) hp atk def
  = if power hp atk def <? u16_modulus then Some (power hp atk def) else None.
Proof.
  intros. destruct (Z.ltb_spec (power hp atk def) u16_modulus).
  - apply power_total_exact; auto.
  - unfold power_total, mul_u16, add_u16, arith_result, checked_sem.
    unfold power, u16_modulus in *.
    destruct (in_width 16 (atk * 10)) eqn:Ha; [cbn [mbind option_bind]|done].
    destruct (in_width 16 (hp + atk * 10)) eqn:Hs; [cbn [mbind option_bind]|done].
    destruct (in_width 16 (def * 10)) eqn:Hd; [cbn [mbind option_bind]|done].
    destruct (in_width 16 (hp + atk * 10 + def * 10)) eqn:Hr; [|done].
    apply in_width_spec in Hr. lia.
Qed.

