(* ===== verification/Storage.v ===== *)
(** * The pallet's data and storage

    The types declared by the pallet ([FighterIndex], [Fighter], [Event])
    and its three storage items, as one record [Storage] holding also the
    event log of [frame_system] that [deposit_event] appends to.  The
    getters generated by [#[pallet::getter]] are functions of the storage;
    the writes ([insert], [set], [deposit_event]) are computations of the
    [St] monad, generic in the error type.  The account type of the
    runtime ([T::AccountId]) is a section variable with decidable
    equality. *)

From S2P Require Import Prelude MachineInt.

(** [type FighterIndex = u32;] *)
Abbreviation FighterIndex := Z (only parsing).

(** [pub fn GetDefaultValue() -> FighterIndex { 0_u32 }] *)
Definition GetDefaultValue : FighterIndex := 0.

(** [pub struct Fighter(pub [u16; 3]);] the array [[hp, atk, def]] as a
    triple in index order. *)
Record Fighter := MkFighter { fighter_dna : Z * Z * Z }.

#[export] Instance Fighter_eq_dec : EqDecision Fighter.
Proof. solve_decision. Qed.

Section Storage.
Context {AccountId : Type} `{!EqDecision AccountId}.

(** [pub enum Event<T>] *)
Inductive Event :=
| FighterCreated (owner : AccountId) (id : FighterIndex) (fighter : Fighter)
| FighterTransferred (from to : AccountId) (id : FighterIndex).

(** The storage of the pallet:
    - [NextFighterId]: [StorageValue<_, FighterIndex, ValueQuery,
      GetDefaultValue>]; [None] is the never-written value, which reads
      as the default;
    - [Fighters]: [StorageMap<_, Blake2_128Concat, FighterIndex, Fighter>];
    - [FighterOwner]: [StorageMap<_, Blake2_128Concat, FighterIndex,
      T::AccountId>];
    - [Events]: the events deposited so far, oldest first. *)
Record Storage := MkStorage {
  NextFighterId : option FighterIndex;
  Fighters : gmap FighterIndex Fighter;
  FighterOwner : gmap FighterIndex AccountId;
  Events : list Event
}.

(** The storage of a fresh chain. *)
Definition genesis : Storage := MkStorage None ∅ ∅ [].

(** [#[pallet::getter(fn next_fighter_id)]], a [ValueQuery]. *)
Definition next_fighter_id (s : Storage) : FighterIndex :=
  default GetDefaultValue (NextFighterId s).

(** [#[pallet::getter(fn fighters)]], an [OptionQuery]. *)
Definition fighters (id : FighterIndex) (s : Storage) : option Fighter :=
  Fighters s !! id.

(** [#[pallet::getter(fn fighter_owner)]], an [OptionQuery]. *)
Definition fighter_owner (id : FighterIndex) (s : Storage) : option AccountId :=
  FighterOwner s !! id.

Context {E : Type}.

(** [NextFighterId::<T>::set(v)] *)
Definition NextFighterId_set (v : FighterIndex) : St Storage E unit :=
  st_modify (fun s => MkStorage (Some v) (Fighters s) (FighterOwner s) (Events s)).

(** [Fighters::<T>::insert(id, fighter)] *)
Definition Fighters_insert (id : FighterIndex) (f : Fighter) : St Storage E unit :=
  st_modify (fun s =>
    MkStorage (NextFighterId s) (<[id := f]> (Fighters s)) (FighterOwner s) (Events s)).

(** [FighterOwner::<T>::insert(id, who)] *)
Definition FighterOwner_insert (id : FighterIndex) (who : AccountId) : St Storage E unit :=
  st_modify (fun s =>
    MkStorage (NextFighterId s) (Fighters s) (<[id := who]> (FighterOwner s)) (Events s)).

(** [Self::deposit_event(ev)]: appended to the system's event log. *)
Definition deposit_event (ev : Event) : St Storage E unit :=
  st_modify (fun s =>
    MkStorage (NextFighterId s) (Fighters s) (FighterOwner s) (Events s ++ [ev])).
End Storage.

Arguments Event : clear implicits.
Arguments Storage : clear implicits.
