(* ===== verification/Pallet.v ===== *)
(** * The dispatchable calls of the pallet

    [ensure_signed], the helpers [get_next_id] and [get_fighter], and the
    calls [create] and [transfer] of [src/pallets/game/src/lib.rs], written
    in the [St] monad over the storage of [Storage], statement by statement
    in the order of the code.  A Rust [?] or [ensure!] that fails stops the
    call with a [DispatchError] ([Dispatch]); an arithmetic overflow that
    panics (under [checked_sem]) stops it with [Panic].  [dispatch] is the
    [Call] enum generated by [#[pallet::call]].

    Theorems: the result and the final storage of each call on each of its
    branches, errors included, and atomicity: a call that fails has written
    nothing (spec section 5), for every input, provided the counter holds a
    [u32] as the storage type guarantees.  Section [Wrapping]: the stats a
    release build accepts.  Section [Transfer]: what a successful transfer
    changes and what it leaves out (no event, self transfers, the previous
    owner's loss of rights). *)

From S2P Require Import Prelude MachineInt Storage.

(** [#[pallet::error] pub enum Error<T>] *)
Inductive Error := InvalidFighterId | NotOwner | TotalOverflow | DefOverflow.

#[export] Instance Error_eq_dec : EqDecision Error.
Proof. solve_decision. Qed.

(** The part of [sp_runtime::DispatchError] the pallet can return:
    [BadOrigin] from [ensure_signed], [Module] from its own errors. *)
Inductive DispatchError := BadOrigin | Module (e : Error).

#[export] Instance DispatchError_eq_dec : EqDecision DispatchError.
Proof. solve_decision. Qed.

(** How a call stops early: a returned error, or a panic of the runtime. *)
Inductive Exn := Dispatch (e : DispatchError) | Panic.

#[export] Instance Exn_eq_dec : EqDecision Exn.
Proof. solve_decision. Qed.

Definition module_err (e : Error) : Exn := Dispatch (Module e).

Section Pallet.
Context {AccountId : Type} `{!EqDecision AccountId}.

(** [frame_system::RawOrigin] *)
Inductive RawOrigin := Root | Signed (who : AccountId) | NoneOrigin.

(** [frame_system::ensure_signed] *)
Definition ensure_signed (o : RawOrigin) : result DispatchError AccountId :=
  match o with
  | Signed who => Ok who
  | _ => Err BadOrigin
  end.

Abbreviation PalletM := (St (Storage AccountId) Exn).

(** An expression whose evaluation may panic. *)
Definition st_checked {A} (o : option A) : PalletM A :=
  match o with
  | Some a => st_ret a
  | None => st_raise Panic
  end.

(** [fn get_next_id() -> Result<FighterIndex, ()>] *)
Definition get_next_id (s : Storage AccountId) : result unit FighterIndex :=
  let v := next_fighter_id s in
  if v =? u32_MAX then Err tt else Ok v.

(** [fn get_fighter(fighter_id) -> Result<Fighter, ()>] *)
Definition get_fighter (fighter_id : FighterIndex) (s : Storage AccountId)
  : result unit Fighter :=
  match fighters fighter_id s with
  | Some fighter => Ok fighter
  | None => Err tt
  end.

Context `{sem : ArithSem}.

Local Open Scope st_scope.

(** [pub fn create(origin, hp: u16, atk: u16, def: u16) -> DispatchResult] *)
Definition create (origin : RawOrigin) (hp atk def : Z) : PalletM unit :=
  who <- st_lift Dispatch (ensure_signed origin) ;;
  total <- st_checked (power_total hp atk def) ;;
  st_ensure (total <=? 1000) (module_err TotalOverflow) ;;
  st_ensure (def <=? 50) (module_err DefOverflow) ;;
  r <- st_gets get_next_id ;;
  fighter_id <- st_lift (fun _ => module_err InvalidFighterId) r ;;
  let dna := (hp, atk, def) in
  let fighter := MkFighter dna in
  Fighters_insert fighter_id fighter ;;
  FighterOwner_insert fighter_id who ;;
  next <- st_checked (add_u32 fighter_id 1) ;;
  NextFighterId_set next ;;
  deposit_event (FighterCreated who fighter_id fighter) ;;
  st_ret tt.

(** [pub fn transfer(origin, fighter_id: u32, new_owner) -> DispatchResult] *)
Definition transfer (origin : RawOrigin) (fighter_id : FighterIndex)
           (new_owner : AccountId) : PalletM unit :=
  who <- st_lift Dispatch (ensure_signed origin) ;;
  r <- st_gets (get_fighter fighter_id) ;;
  _ <- st_lift (fun _ => module_err InvalidFighterId) r ;;
  owner <- st_gets (fighter_owner fighter_id) ;;
  st_ensure (bool_decide (owner = Some who)) (module_err NotOwner) ;;
  FighterOwner_insert fighter_id new_owner ;;
  st_ret tt.

(** The [Call] enum generated by [#[pallet::call]]. *)
Inductive Call :=
| create_call (hp atk def : Z)
| transfer_call (fighter_id : FighterIndex) (new_owner : AccountId).

Definition dispatch (origin : RawOrigin) (c : Call) : PalletM unit :=
  match c with
  | create_call hp atk def => create origin hp atk def
  | transfer_call id new_owner => transfer origin id new_owner
  end.

(** [#[pallet::weight(10_000)]] of [create]. *)
Definition create_weight : Z := 10_000.

(** [#[pallet::weight(10_000)]] of [transfer]. *)
Definition transfer_weight : Z := 10_000.

(** [GetDispatchInfo::get_dispatch_info(&call).weight], generated by
    [#[pallet::call]] from the annotations. *)
Definition call_weight (c : Call) : Z :=
  match c with
  | create_call _ _ _ => create_weight
  | transfer_call _ _ => transfer_weight
  end.
End Pallet.

Arguments RawOrigin : clear implicits.
Arguments Call : clear implicits.

(** Run the monadic glue of a call whose tests have been decided. *)
Ltac pallet_run :=
  cbn [st_bind st_lift st_ret st_checked ensure_signed st_ensure st_gets
       st_modify st_raise Fighters_insert FighterOwner_insert
       NextFighterId_set deposit_event dispatch fst snd].

(** ** Behaviour of the calls, branch by branch *)

(** The inputs [create] is meant to accept (spec section 4.2): the power
    budget and the defence cap, on the true values. *)
Definition valid_stats (hp atk def : Z) : bool :=
  (power hp atk def <=? 1000) && (def <=? 50).

Definition stats_u16 (hp atk def : Z) : bool := is_u16 hp && is_u16 atk && is_u16 def.

Section CallSpec.
Context {AccountId : Type} `{!EqDecision AccountId}.
Context `{sem : ArithSem} `{!ArithSemLaws sem}.

Implicit Types (s : Storage AccountId) (who : AccountId).

(** The storage after a successful [create] by [who] of fighter [f] at
    index [id]. *)
Definition created s who (id : FighterIndex) (f : Fighter) : Storage AccountId :=
  MkStorage (Some (id + 1)) (<[id := f]> (Fighters s)) (<[id := who]> (FighterOwner s))
    (Events s ++ [FighterCreated who id f]).

(** The storage after a successful [transfer] of [id] to [new_owner]. *)
Definition transferred s (id : FighterIndex) (new_owner : AccountId) : Storage AccountId :=
  MkStorage (NextFighterId s) (Fighters s) (<[id := new_owner]> (FighterOwner s)) (Events s).

Lemma stats_u16_spec hp atk def :
  stats_u16 hp atk def = true <-> 0 <= hp < 65536 /\ 0 <= atk < 65536 /\ 0 <= def < 65536.
Proof. unfold stats_u16. rewrite !andb_true_iff, !is_u16_spec. tauto. Qed.

Lemma valid_stats_spec hp atk def :
  valid_stats hp atk def = true <-> power hp atk def <= 1000 /\ def <= 50.
Proof. unfold valid_stats. rewrite andb_true_iff, !Z.leb_le. done. Qed.

Lemma get_next_id_ok s :
  next_fighter_id s <> u32_MAX -> get_next_id s = Ok (next_fighter_id s).
Proof. intros H. unfold get_next_id. by rewrite (proj2 (Z.eqb_neq _ _) H). Qed.

Lemma get_next_id_max s :
  next_fighter_id s = u32_MAX -> get_next_id s = Err tt.
Proof. intros H. unfold get_next_id. by rewrite H, Z.eqb_refl. Qed.

(** *** [create] *)

(** A call from an origin that is not signed fails with [BadOrigin]
    before anything is evaluated. *)
Lemma create_bad_origin o hp atk def s :
  (forall who, o <> Signed who) ->
  create o hp atk def s = (Err (Dispatch BadOrigin), s).
Proof. intros Ho. destruct o; [done| |done]. by destruct (Ho who). Qed.

(** C1: valid stats and a counter below [u32::MAX]: [create] succeeds,
    stores the fighter [[hp, atk, def]] and its owner at the index read
    from the counter, advances the counter by one and deposits
    [FighterCreated]. *)
Lemma create_ok who hp atk def s :
  stats_u16 hp atk def = true -> valid_stats hp atk def = true ->
  is_u32 (next_fighter_id s) = true -> next_fighter_id s <> u32_MAX ->
  create (Signed who) hp atk def s =
    (Ok tt, created s who (next_fighter_id s) (MkFighter (hp, atk, def))).
Proof.
  intros (? & ? & ?)%stats_u16_spec [Hp Hd]%valid_stats_spec Hn%is_u32_spec Hmax.
  unfold create. pallet_run.
  rewrite power_total_exact by (unfold power, u16_modulus in *; lia). pallet_run.
  rewrite (proj2 (Z.leb_le _ _) Hp), (proj2 (Z.leb_le _ _) Hd). pallet_run.
  rewrite get_next_id_ok by done. pallet_run.
  rewrite add_u32_exact by (rewrite u32_MAX_eq in Hmax; lia). done.
Qed.

(** The validation of [create] on u16 inputs whose power does not wrap:
    the first two [ensure!]s see the true power. *)
Lemma create_checks_exact o hp atk def s :
  stats_u16 hp atk def = true -> power hp atk def < u16_modulus ->
  create o hp atk def s =
    st_bind (st_lift Dispatch (ensure_signed o)) (fun who =>
    st_bind (st_ensure (power hp atk def <=? 1000) (module_err TotalOverflow)) (fun _ =>
    st_bind (st_ensure (def <=? 50) (module_err DefOverflow)) (fun _ =>
    st_bind (st_gets get_next_id) (fun r =>
    st_bind (st_lift (fun _ => module_err InvalidFighterId) r) (fun fighter_id =>
    st_bind (Fighters_insert fighter_id (MkFighter (hp, atk, def))) (fun _ =>
    st_bind (FighterOwner_insert fighter_id who) (fun _ =>
    st_bind (st_checked (add_u32 fighter_id 1)) (fun next =>
    st_bind (NextFighterId_set next) (fun _ =>
    st_bind (deposit_event (FighterCreated who fighter_id (MkFighter (hp, atk, def))))
      (fun _ => st_ret tt)))))))))) s.
Proof.
  intros (? & ? & ?)%stats_u16_spec Hw. unfold create.
  by rewrite power_total_exact by (unfold power, u16_modulus in *; lia).
Qed.

(** C10: a power above the budget (and below [2^16], so that it does not
    wrap) fails with [TotalOverflow] and leaves the storage unchanged. *)
Lemma create_total_overflow who hp atk def s :
  stats_u16 hp atk def = true -> 1000 < power hp atk def < u16_modulus ->
  create (Signed who) hp atk def s = (Err (module_err TotalOverflow), s).
Proof.
  intros Hu [Hp Hw]. rewrite create_checks_exact by done. pallet_run.
  by rewrite (proj2 (Z.leb_gt _ _) Hp).
Qed.

(** C11: within the power budget but with [def > 50], [create] fails with
    [DefOverflow] and leaves the storage unchanged. *)
Lemma create_def_overflow who hp atk def s :
  stats_u16 hp atk def = true -> power hp atk def <= 1000 -> 50 < def ->
  create (Signed who) hp atk def s = (Err (module_err DefOverflow), s).
Proof.
  intros Hu Hp Hd. rewrite create_checks_exact by (done || (unfold u16_modulus; lia)).
  pallet_run. by rewrite (proj2 (Z.leb_le _ _) Hp), (proj2 (Z.leb_gt _ _) Hd).
Qed.

(** valid stats but the counter at [u32::MAX]: [create] fails with
    [InvalidFighterId] and leaves the storage unchanged. *)
Lemma create_exhausted who hp atk def s :
  stats_u16 hp atk def = true -> valid_stats hp atk def = true ->
  next_fighter_id s = u32_MAX ->
  create (Signed who) hp atk def s = (Err (module_err InvalidFighterId), s).
Proof.
  intros Hu [Hp Hd]%valid_stats_spec Hmax.
  rewrite create_checks_exact by (done || (unfold u16_modulus; lia)). pallet_run.
  rewrite (proj2 (Z.leb_le _ _) Hp), (proj2 (Z.leb_le _ _) Hd). pallet_run.
  by rewrite get_next_id_max.
Qed.

(** [create] as a decision tree: every branch but the last returns the
    storage it was given.  Valid for any storage whose counter is a
    [u32], since then [fighter_id + 1] cannot overflow. *)
Lemma create_eq o hp atk def s :
  is_u32 (next_fighter_id s) = true ->
  create o hp atk def s =
    match ensure_signed o with
    | Err e => (Err (Dispatch e), s)
    | Ok who =>
        match power_total hp atk def with
        | None => (Err Panic, s)
        | Some total =>
            if total <=? 1000 then
              if def <=? 50 then
                if next_fighter_id s =? u32_MAX then (Err (module_err InvalidFighterId), s)
                else (Ok tt, created s who (next_fighter_id s) (MkFighter (hp, atk, def)))
              else (Err (module_err DefOverflow), s)
            else (Err (module_err TotalOverflow), s)
        end
    end.
Proof.
  intros Hn%is_u32_spec. unfold create, get_next_id.
  destruct (ensure_signed o) as [who|]; pallet_run; [|done].
  destruct (power_total hp atk def) as [t|]; pallet_run; [|done].
  destruct (t <=? 1000); pallet_run; [|done].
  destruct (def <=? 50); pallet_run; [|done].
  destruct (Z.eqb_spec (next_fighter_id s) u32_MAX) as [|Hm]; pallet_run; [done|].
  by rewrite add_u32_exact by (rewrite u32_MAX_eq in Hm; lia).
Qed.

(** C2: atomicity of [create] (spec section 5): whatever the inputs and
    the origin, a failing [create] (error or panic) returns the storage it
    was given.  The only fallible step after the first write is
    [fighter_id + 1], which cannot overflow since [get_next_id] refused
    [u32::MAX]. *)
Lemma create_atomic o hp atk def s e s' :
  is_u32 (next_fighter_id s) = true ->
  create o hp atk def s = (Err e, s') -> s' = s.
Proof. intros Hn. rewrite create_eq by done. by repeat case_match; intros [= _ <-]. Qed.

(** [create] succeeds only when the origin is signed, the power seen by
    the code is within the budget, [def <= 50] and the counter is not
    exhausted; it then stores exactly [created]. *)
Lemma create_ok_inv o hp atk def s s' :
  is_u32 (next_fighter_id s) = true ->
  create o hp atk def s = (Ok tt, s') ->
  exists who total,
    o = Signed who /\ power_total hp atk def = Some total /\ total <= 1000 /\
    def <= 50 /\ next_fighter_id s <> u32_MAX /\
    s' = created s who (next_fighter_id s) (MkFighter (hp, atk, def)).
Proof.
  intros Hn. rewrite create_eq by done.
  destruct o as [|who|]; simpl; [done| |done].
  destruct (power_total hp atk def) as [t|]; [|done].
  destruct (Z.leb_spec t 1000), (Z.leb_spec def 50),
    (Z.eqb_spec (next_fighter_id s) u32_MAX); intros; simplify_eq; eauto 10.
Qed.

(** *** [transfer] *)

(** [transfer] as a decision tree: it writes only on its success branch. *)
Lemma transfer_eq o id new_owner s :
  transfer o id new_owner s =
    match ensure_signed o with
    | Err e => (Err (Dispatch e), s)
    | Ok who =>
        match fighters id s with
        | None => (Err (module_err InvalidFighterId), s)
        | Some _ =>
            if bool_decide (fighter_owner id s = Some who)
            then (Ok tt, transferred s id new_owner)
            else (Err (module_err NotOwner), s)
        end
    end.
Proof.
  unfold transfer, get_fighter. destruct (ensure_signed o); pallet_run; [|done].
  destruct (fighters id s); pallet_run; [|done]. by case_bool_decide.
Qed.

Lemma transfer_bad_origin o id new_owner s :
  (forall who, o <> Signed who) ->
  transfer o id new_owner s = (Err (Dispatch BadOrigin), s).
Proof. intros Ho. destruct o; [done| |done]. by destruct (Ho who). Qed.

(** Neither call runs for an unsigned origin. *)
Lemma dispatch_bad_origin o (c : Call AccountId) s :
  (forall who, o <> Signed who) -> dispatch o c s = (Err (Dispatch BadOrigin), s).
Proof.
  intros Ho. destruct c; [by apply create_bad_origin|by apply transfer_bad_origin].
Qed.

(** C7: the current owner of an existing fighter transfers it: only its
    ownership entry changes, to [new_owner]; no event is deposited. *)
Lemma transfer_ok who id new_owner s f :
  fighters id s = Some f -> fighter_owner id s = Some who ->
  transfer (Signed who) id new_owner s = (Ok tt, transferred s id new_owner).
Proof.
  intros Hf Ho. unfold transfer, get_fighter. pallet_run. rewrite Hf. pallet_run.
  rewrite Ho, bool_decide_true by done. done.
Qed.

(** C9: a fighter that does not exist cannot be transferred, whoever
    calls: [InvalidFighterId], storage unchanged. *)
Lemma transfer_unknown who id new_owner s :
  fighters id s = None ->
  transfer (Signed who) id new_owner s = (Err (module_err InvalidFighterId), s).
Proof. intros Hf. unfold transfer, get_fighter. pallet_run. by rewrite Hf. Qed.

(** C8: a caller who is not the recorded owner of an existing fighter is
    refused with [NotOwner], storage unchanged. *)
Lemma transfer_not_owner who id new_owner s f :
  fighters id s = Some f -> fighter_owner id s <> Some who ->
  transfer (Signed who) id new_owner s = (Err (module_err NotOwner), s).
Proof.
  intros Hf Ho. unfold transfer, get_fighter. pallet_run. rewrite Hf. pallet_run.
  by rewrite bool_decide_false.
Qed.

(** Atomicity of [transfer]: it fails before its only write. *)
Lemma transfer_atomic o id new_owner s e s' :
  transfer o id new_owner s = (Err e, s') -> s' = s.
Proof.
  unfold transfer, get_fighter.
  destruct (ensure_signed o) as [who|]; pallet_run; [|by intros [= _ <-]].
  destruct (fighters id s); pallet_run; [|by intros [= _ <-]].
  case_bool_decide; pallet_run; [by intros [=]|by intros [= _ <-]].
Qed.

(** [transfer] succeeds only for a signed caller who is the recorded
    owner of an existing fighter; it then stores exactly [transferred]. *)
Lemma transfer_ok_inv o id new_owner s s' :
  transfer o id new_owner s = (Ok tt, s') ->
  exists who f, o = Signed who /\ fighters id s = Some f /\
    fighter_owner id s = Some who /\ s' = transferred s id new_owner.
Proof.
  unfold transfer, get_fighter.
  destruct o as [|who|]; pallet_run; [done| |done].
  destruct (fighters id s) as [f|] eqn:Hf; pallet_run; [|done].
  case_bool_decide as Ho; pallet_run; [|done]. intros [= <-]. eauto 10.
Qed.

(** atomicity of every call: a dispatch that fails leaves the storage
    as it found it. *)
Lemma dispatch_atomic o (c : Call AccountId) s e s' :
  is_u32 (next_fighter_id s) = true ->
  dispatch o c s = (Err e, s') -> s' = s.
Proof.
  intros Hn. destruct c; simpl; [rewrite create_eq by done|rewrite transfer_eq];
    by repeat case_match; intros [= _ <-].
Qed.
End CallSpec.

(** ** Consequences: release-build acceptance and the behaviour of [transfer] *)

Section Wrapping.
Context {AccountId : Type} `{!EqDecision AccountId}.

Implicit Types (s : Storage AccountId) (who : AccountId).

(** C18: in a release build [create] accepts u16 stats as soon as their
    power taken modulo [2^16] is within the budget, whatever the true
    power. *)
Theorem create_wrapping_accepts who hp atk def s :
  stats_u16 hp atk def = true ->
  power hp atk def mod u16_modulus <= 1000 -> def <= 50 ->
  is_u32 (next_fighter_id s) = true -> next_fighter_id s <> u32_MAX ->
  create (sem := wrapping_sem) (Signed who) hp atk def s =
    (Ok tt, created s who (next_fighter_id s) (MkFighter (hp, atk, def))).
Proof.
  intros Hu Hp Hd Hn Hm. rewrite create_eq by done. cbn [ensure_signed].
  rewrite power_total_wrapping, (proj2 (Z.leb_le _ _) Hp), (proj2 (Z.leb_le _ _) Hd).
  by rewrite (proj2 (Z.eqb_neq _ _) Hm).
Qed.
End Wrapping.

Section Transfer.
Context {AccountId : Type} `{!EqDecision AccountId}.

Implicit Types (s : Storage AccountId) (who : AccountId).

(** C20: [transfer] never deposits an event, successful or not, while spec
    section 4.3 says it emits [FighterTransferred(previous, new, id)]. *)
Theorem transfer_no_event o id new_owner s r s' :
  transfer o id new_owner s = (r, s') -> Events s' = Events s.
Proof.
  destruct r as [[]|e] eqn:Hr; intros Ht.
  - by apply transfer_ok_inv in Ht as (? & ? & _ & _ & _ & ->).
  - by rewrite (transfer_atomic _ _ _ _ _ _ Ht).
Qed.

(** C21: a transfer to oneself by the owner succeeds and leaves the storage
    exactly as it was (spec section 9: accepted, no state change). *)
Theorem transfer_self_noop who id s f :
  fighters id s = Some f -> fighter_owner id s = Some who ->
  transfer (Signed who) id who s = (Ok tt, s).
Proof.
  intros Hf Ho. rewrite transfer_eq. cbn [ensure_signed].
  rewrite Hf, bool_decide_true by done. unfold transferred. rewrite insert_id by done. by destruct s.
Qed.

(** C22: authorization is current-owner-only (spec section 8): once the
    owner [a] has transferred a fighter to [b <> a], [a] can no longer
    transfer it, while [b] can. *)
Theorem transfer_revokes a b c id s f s' :
  a <> b -> fighters id s = Some f -> fighter_owner id s = Some a ->
  transfer (Signed a) id b s = (Ok tt, s') ->
  transfer (Signed a) id c s' = (Err (module_err NotOwner), s') /\
  transfer (Signed b) id c s' = (Ok tt, transferred s' id c).
Proof.
  intros Hab Hf Ho Ht. rewrite transfer_eq in Ht. cbn [ensure_signed] in Ht.
  rewrite Hf, bool_decide_true in Ht by done. injection Ht as <-.
  assert (Ho' : fighter_owner id (transferred s id b) = Some b)
    by (unfold fighter_owner; simpl; by rewrite lookup_insert_eq).
  rewrite !transfer_eq. cbn [ensure_signed].
  change (fighters id (transferred s id b)) with (fighters id s). rewrite Hf, Ho'.
  by rewrite bool_decide_false, bool_decide_true by congruence.
Qed.
End Transfer.

(** ** Concrete instances (accounts are natural numbers) *)

Definition demo_fighter : Fighter := MkFighter (500, 20, 10).

(** The storage after account 1 created [demo_fighter] at genesis. *)
Definition demo_storage : Storage nat := created genesis 1%nat 0 demo_fighter.

Lemma create_ok_witness :
  create (sem := wrapping_sem) (Signed 1%nat) 500 20 10 genesis =
    (Ok tt, created genesis 1%nat 0 demo_fighter).
Proof.
  apply (create_ok (sem := wrapping_sem) 1%nat 500 20 10 genesis);
    [reflexivity|reflexivity|reflexivity|apply Z.eqb_neq; reflexivity].
Defined.

Lemma create_atomic_witness :
  snd (create (sem := wrapping_sem) (Signed 1%nat) 900 10 5 genesis) = genesis.
Proof.
  apply (create_atomic (sem := wrapping_sem) (Signed 1%nat) 900 10 5 genesis
           (module_err TotalOverflow)); reflexivity.
Defined.

Lemma create_total_overflow_witness :
  create (sem := wrapping_sem) (Signed 1%nat) 900 10 5 genesis =
    (Err (module_err TotalOverflow), genesis).
Proof.
  apply (create_total_overflow (sem := wrapping_sem) 1%nat 900 10 5 genesis);
    [reflexivity|split; apply Z.ltb_lt; reflexivity].
Defined.

Lemma create_def_overflow_witness :
  create (sem := wrapping_sem) (Signed 1%nat) 400 0 60 genesis =
    (Err (module_err DefOverflow), genesis).
Proof.
  apply (create_def_overflow (sem := wrapping_sem) 1%nat 400 0 60 genesis);
    [reflexivity|apply Z.leb_le; reflexivity|apply Z.ltb_lt; reflexivity].
Defined.

Lemma transfer_ok_witness :
  transfer (Signed 1%nat) 0 2%nat demo_storage = (Ok tt, transferred demo_storage 0 2%nat).
Proof. apply (transfer_ok 1%nat 0 2%nat demo_storage demo_fighter); reflexivity. Defined.

Lemma transfer_unknown_witness :
  transfer (Signed 2%nat) 5 3%nat demo_storage =
    (Err (module_err InvalidFighterId), demo_storage).
Proof. apply (transfer_unknown 2%nat 5 3%nat demo_storage); reflexivity. Defined.

Lemma transfer_not_owner_witness :
  transfer (Signed 2%nat) 0 3%nat demo_storage = (Err (module_err NotOwner), demo_storage).
Proof.
  apply (transfer_not_owner 2%nat 0 3%nat demo_storage demo_fighter);
    [reflexivity|vm_compute; congruence].
Defined.

Lemma create_wrapping_accepts_witness :
  create (sem := wrapping_sem) (Signed 1%nat) 0 6554 0 genesis =
    (Ok tt, created genesis 1%nat 0 (MkFighter (0, 6554, 0))).
Proof.
  apply (create_wrapping_accepts 1%nat 0 6554 0 genesis);
    [reflexivity|apply Z.leb_le; reflexivity|apply Z.leb_le; reflexivity|reflexivity|
     apply Z.eqb_neq; reflexivity].
Defined.

Lemma transfer_no_event_witness :
  Events (transferred demo_storage 0 2%nat) = Events demo_storage.
Proof. apply (transfer_no_event (Signed 1%nat) 0 2%nat demo_storage (Ok tt)). reflexivity. Defined.

Lemma transfer_self_noop_witness :
  transfer (Signed 1%nat) 0 1%nat demo_storage = (Ok tt, demo_storage).
Proof. apply (transfer_self_noop 1%nat 0 demo_storage demo_fighter); reflexivity. Defined.

Lemma transfer_revokes_witness :
  transfer (Signed 1%nat) 0 3%nat (transferred demo_storage 0 2%nat) =
    (Err (module_err NotOwner), transferred demo_storage 0 2%nat) /\
  transfer (Signed 2%nat) 0 3%nat (transferred demo_storage 0 2%nat) =
    (Ok tt, transferred (transferred demo_storage 0 2%nat) 0 3%nat).
Proof.
  apply (transfer_revokes 1%nat 2%nat 3%nat 0 demo_storage demo_fighter);
    [vm_compute; congruence|reflexivity|reflexivity|reflexivity].
Defined.
