(* ===== verification/Executive.v ===== *)
(** * The host: applying extrinsics and blocks

    The pallet's calls run inside the runtime's executive, which the
    repository does not contain (spec section 6: the host supplies the
    signed origin and the commit boundary).  It is modelled here from the
    spec and from FRAME's documented behaviour:
    - [apply_extrinsic]: a dispatch that returns [Err] is rolled back by the
      storage layer FRAME wraps around every call (events included), one
      that returns [Ok] is committed, and a panic traps the runtime, so that
      the extrinsic (and its block) is not applied at all ([None]);
    - [apply_extrinsic_plain]: the same without the storage layer, as in
      FRAME versions before it was made the default: the storage is kept as
      the call left it;
    - [apply_block]: the extrinsics of a block applied in order, each on the
      storage its predecessor left, the whole block rejected if one traps;
    - [step]: one applied extrinsic with well-typed arguments (SCALE decoding
      only produces [u16]/[u32] values), and its closure [star step].

    - [build_block]: block authoring under [frame_system]'s [CheckWeight]:
      each candidate weighs the runtime's base weight plus its declared
      [call_weight]; one that would take the block past the limit is left
      out ([ExhaustsResources]), one that traps is dropped.

    Theorems: transactional and plain application agree on every storage
    whose counter is a [u32] (so the pallet does not rely on the storage
    layer for atomicity), a block, and so an authored block, is a sequence
    of steps, and no call panics in a release build. *)

From S2P Require Import Prelude MachineInt Storage Pallet.

Section Executive.
Context {AccountId : Type} `{!EqDecision AccountId}.
Context `{sem : ArithSem}.

Abbreviation Store := (Storage AccountId).

(** An extrinsic: a call with the origin the host has authenticated. *)
Definition Extrinsic : Type := RawOrigin AccountId * Call AccountId.

Definition apply_extrinsic (xt : Extrinsic) (s : Store)
  : option (result DispatchError unit * Store) :=
  match dispatch xt.1 xt.2 s with
  | (Ok tt, s') => Some (Ok tt, s')
  | (Err (Dispatch e), _) => Some (Err e, s)
  | (Err Panic, _) => None
  end.

Definition apply_extrinsic_plain (xt : Extrinsic) (s : Store)
  : option (result DispatchError unit * Store) :=
  match dispatch xt.1 xt.2 s with
  | (Ok tt, s') => Some (Ok tt, s')
  | (Err (Dispatch e), s') => Some (Err e, s')
  | (Err Panic, _) => None
  end.

Fixpoint apply_block (xts : list Extrinsic) (s : Store)
  : option (list (result DispatchError unit) * Store) :=
  match xts with
  | [] => Some ([], s)
  | xt :: rest =>
      match apply_extrinsic xt s with
      | None => None
      | Some (r, s1) =>
          match apply_block rest s1 with
          | None => None
          | Some (rs, s2) => Some (r :: rs, s2)
          end
      end
  end.

(** The arguments of a call as the runtime decodes them. *)
Definition call_well_typed (c : Call AccountId) : bool :=
  match c with
  | create_call hp atk def => stats_u16 hp atk def
  | transfer_call id _ => is_u32 id
  end.

Inductive step : Store -> Store -> Prop :=
| step_extrinsic o c s r s' :
    call_well_typed c = true ->
    apply_extrinsic (o, c) s = Some (r, s') ->
    step s s'.

Definition reachable (s : Store) : Prop := star step genesis s.

(** The weight an extrinsic adds to its block: the runtime's per-extrinsic
    base weight and the call's declared weight. *)
Definition extrinsic_weight (base : Z) (xt : Extrinsic) : Z := base + call_weight xt.2.

(** Block authoring under [frame_system]'s [CheckWeight]: the candidate
    extrinsics are tried in order; one whose weight would take the block
    past [limit] is left out ([ExhaustsResources]) and the next is tried,
    one that traps is left out, the others are applied.  Returns the
    included extrinsics, their results and the final storage. *)
Fixpoint build_block (base limit used : Z) (xts : list Extrinsic) (s : Store)
  : list Extrinsic * list (result DispatchError unit) * Store :=
  match xts with
  | [] => ([], [], s)
  | xt :: rest =>
      if used + extrinsic_weight base xt <=? limit then
        match apply_extrinsic xt s with
        | Some (r, s1) =>
            let '(inc, rs, s2) := build_block base limit (used + extrinsic_weight base xt) rest s1 in
            (xt :: inc, r :: rs, s2)
        | None => build_block base limit used rest s
        end
      else build_block base limit used rest s
  end.
End Executive.

Arguments Extrinsic : clear implicits.

Section ExecutiveFacts.
Context {AccountId : Type} `{!EqDecision AccountId}.
Context `{sem : ArithSem} `{!ArithSemLaws sem}.

Implicit Types (s : Storage AccountId) (xt : Extrinsic AccountId).

(** Every outcome of [apply_extrinsic] comes from the dispatch: success
    commits the dispatch's storage, an error keeps the old one. *)
Lemma apply_extrinsic_inv xt s r s' :
  apply_extrinsic xt s = Some (r, s') ->
  (r = Ok tt /\ dispatch xt.1 xt.2 s = (Ok tt, s')) \/
  (exists e s'', r = Err e /\ s' = s /\ dispatch xt.1 xt.2 s = (Err (Dispatch e), s'')).
Proof.
  unfold apply_extrinsic.
  destruct (dispatch xt.1 xt.2 s) as [[[]|[e|]] s0] eqn:E; intros; simplify_eq;
    [left|right; eexists _, _]; eauto.
Qed.

(** C17: the storage layer is redundant: on a storage whose counter holds a
    [u32], applying an extrinsic with or without rollback gives the same
    result and the same storage. *)
Lemma apply_extrinsic_plain_eq xt s :
  is_u32 (next_fighter_id s) = true ->
  apply_extrinsic_plain xt s = apply_extrinsic xt s.
Proof.
  intros Hn. unfold apply_extrinsic, apply_extrinsic_plain.
  destruct (dispatch xt.1 xt.2 s) as [[[]|[e|]] s0] eqn:E; try done.
  by rewrite (dispatch_atomic _ _ _ _ _ Hn E).
Qed.

(** A block of well-typed extrinsics that is applied is a sequence of
    steps. *)
Lemma apply_block_star xts s rs s' :
  Forall (fun xt => call_well_typed xt.2 = true) xts ->
  apply_block xts s = Some (rs, s') -> star step s s'.
Proof.
  intros Hwt. revert s rs. induction Hwt as [|[o c] xts Hc _ IH]; intros s rs.
  - simpl. intros [= _ <-]. apply star_refl.
  - simpl. destruct (apply_extrinsic (o, c) s) as [[r s1]|] eqn:E; [|done].
    destruct (apply_block xts s1) as [[rs1 s2]|] eqn:E2; [|done].
    intros [= _ <-]. eapply star_step; [econstructor; eauto|]. eauto.
Qed.
End ExecutiveFacts.

(** An authored block is a sequence of steps of any relation that every
    applied candidate performs. *)
Section BlockRuns.
Context {AccountId : Type} `{!EqDecision AccountId}.
Context `{sem : ArithSem}.
Variable R : Storage AccountId -> Storage AccountId -> Prop.
Variable P : Extrinsic AccountId -> Prop.
Hypothesis applied_R :
  forall xt s r s', P xt -> apply_extrinsic xt s = Some (r, s') -> R s s'.

Lemma build_block_star base limit used xts s :
  Forall P xts -> star R s (build_block base limit used xts s).2.
Proof.
  intros Hxs. revert used s.
  induction Hxs as [|xt rest Hxt _ IH]; intros used s; cbn [build_block]; [apply star_refl|].
  destruct (_ <=? limit); [|apply IH].
  destruct (apply_extrinsic xt s) as [[r s1]|] eqn:E; [|apply IH].
  specialize (IH (used + extrinsic_weight base xt) s1).
  destruct (build_block base limit (used + extrinsic_weight base xt) rest s1) as [[inc rs] s2].
  simpl in *. eapply star_step; [eapply applied_R; eauto|exact IH].
Qed.
End BlockRuns.

Section Blocks.
Context {AccountId : Type} `{!EqDecision AccountId}.

Implicit Types (s : Storage AccountId) (xts : list (Extrinsic AccountId)).

(** In a release build no call panics. *)
Lemma dispatch_wrapping_no_panic o (c : Call AccountId) s s' :
  dispatch (sem := wrapping_sem) o c s <> (Err Panic, s').
Proof.
  destruct c as [hp atk def|id new_owner]; cbn [dispatch].
  - unfold create. destruct (ensure_signed o); pallet_run; [|done].
    rewrite power_total_wrapping. pallet_run.
    destruct (_ <=? 1000); pallet_run; [|done]. destruct (def <=? 50); pallet_run; [|done].
    destruct (get_next_id s); pallet_run; done.
  - rewrite transfer_eq. by repeat case_match.
Qed.

End Blocks.

(** ** Concrete instances *)

(** [demo_storage] is reached from genesis by one extrinsic, in both build
    profiles. *)
Lemma demo_reachable_wrapping : reachable (sem := wrapping_sem) demo_storage.
Proof.
  apply star_one. eapply (step_extrinsic (Signed 1%nat) (create_call 500 20 10));
    reflexivity.
Qed.

Lemma demo_reachable_checked : reachable (sem := checked_sem) demo_storage.
Proof.
  apply star_one. eapply (step_extrinsic (Signed 1%nat) (create_call 500 20 10));
    reflexivity.
Qed.

Lemma apply_extrinsic_plain_eq_witness :
  apply_extrinsic_plain (sem := wrapping_sem) (Signed 1%nat, create_call 900 10 5) genesis =
  apply_extrinsic (sem := wrapping_sem) (Signed 1%nat, create_call 900 10 5) genesis.
Proof.
  apply (apply_extrinsic_plain_eq (sem := wrapping_sem)
           (Signed 1%nat, create_call 900 10 5) genesis); reflexivity.
Defined.

