(* ===== verification/Invariant.v ===== *)
(** * The storage invariant and what follows from it

    [wf s]: the counter [NextFighterId] holds a [u32], and the keys of both
    [Fighters] and [FighterOwner] are exactly the ids [0 .. next-1] issued so
    far.  It holds at genesis and every call preserves it (on success by the
    shape of [created]/[transferred], on failure by atomicity), so it holds
    in every state reachable by applied extrinsics (rule induction on
    [star step]); in particular the two maps always have the same keys
    (spec section 3).  Consequences along runs: the counter never decreases and never passes [u32::MAX], stored fighters are
    never changed or removed, a new id is fresh and larger than every
    issued id, and exhaustion of the id space is permanent. *)

From S2P Require Import Prelude MachineInt Storage Pallet Executive.

(** The ids issued when the counter is [n]. *)
Definition ids_below (n : Z) : gset Z := list_to_set (Z.of_nat <$> seq 0 (Z.to_nat n)).

Lemma elem_of_ids_below k n : k ∈ ids_below n <-> 0 <= k < n.
Proof.
  unfold ids_below. rewrite elem_of_list_to_set, list_elem_of_fmap. split.
  - intros (j & -> & Hj%elem_of_seq). lia.
  - intros Hk. exists (Z.to_nat k). rewrite elem_of_seq. lia.
Qed.

Lemma ids_below_succ n : 0 <= n -> ids_below (n + 1) = {[n]} ∪ ids_below n.
Proof.
  intros Hn. apply set_eq. intros k.
  rewrite elem_of_union, elem_of_singleton, !elem_of_ids_below. lia.
Qed.

Section Invariant.
Context {AccountId : Type} `{!EqDecision AccountId}.

Implicit Types (s : Storage AccountId).

Definition wf s : Prop :=
  is_u32 (next_fighter_id s) = true /\
  dom (Fighters s) = ids_below (next_fighter_id s) /\
  dom (FighterOwner s) = ids_below (next_fighter_id s).

(** [s'] extends [s]: the counter has not decreased and every stored
    fighter is still stored, unchanged. *)
Definition extends s s' : Prop :=
  next_fighter_id s <= next_fighter_id s' /\ Fighters s ⊆ Fighters s'.

(** The id space is exhausted: [get_next_id] fails from now on. *)
Definition exhausted s : Prop := next_fighter_id s = u32_MAX.

Lemma wf_genesis : wf (genesis (AccountId := AccountId)).
Proof. split; [done|]. cbn [genesis Fighters FighterOwner]. by rewrite !dom_empty_L. Qed.

Lemma wf_keys s k : wf s -> is_Some (Fighters s !! k) <-> 0 <= k < next_fighter_id s.
Proof. intros (_ & HF & _). by rewrite <- elem_of_dom, HF, elem_of_ids_below. Qed.

Lemma wf_created s who f :
  wf s -> next_fighter_id s <> u32_MAX ->
  wf (created s who (next_fighter_id s) f).
Proof.
  intros (Hn%is_u32_spec & HF & HO) Hm. rewrite u32_MAX_eq in Hm.
  unfold wf.
  replace (next_fighter_id (created s who (next_fighter_id s) f))
    with (next_fighter_id s + 1) by reflexivity.
  cbn [created Fighters FighterOwner].
  rewrite !dom_insert_L, HF, HO. rewrite ids_below_succ by lia.
  split; [apply is_u32_spec; lia|done].
Qed.

Lemma wf_transferred s id new_owner f :
  wf s -> fighters id s = Some f -> wf (transferred s id new_owner).
Proof.
  intros (Hn & HF & HO) Hf. unfold wf.
  change (next_fighter_id (transferred s id new_owner)) with (next_fighter_id s).
  cbn [transferred Fighters FighterOwner]. rewrite dom_insert_L, HO. split_and!; [done|done|].
  assert (Hid : id ∈ ids_below (next_fighter_id s)) by (rewrite <- HF; apply elem_of_dom; eauto).
  by apply subseteq_union_1_L, singleton_subseteq_l.
Qed.

Context `{sem : ArithSem} `{!ArithSemLaws sem}.

#[local] Hint Resolve wf_genesis : pallet.

(** Every call preserves the invariant, whatever its outcome. *)
Lemma dispatch_wf o (c : Call AccountId) s r s' :
  wf s -> dispatch o c s = (r, s') -> wf s'.
Proof.
  intros Hwf Hd. destruct r as [[]|e].
  - destruct c; simpl in Hd.
    + apply create_ok_inv in Hd as (? & ? & _ & _ & _ & _ & Hm & ->); [|apply Hwf].
      by apply wf_created.
    + apply transfer_ok_inv in Hd as (? & ? & _ & Hf & _ & ->). by eapply wf_transferred.
  - by rewrite (dispatch_atomic _ _ _ _ _ (proj1 Hwf) Hd).
Qed.

Lemma step_wf s s' : wf s -> step s s' -> wf s'.
Proof.
  intros Hwf Hstep. destruct Hstep as [o c s0 r s1 _ Hap].
  destruct (apply_extrinsic_inv _ _ _ _ Hap) as [[_ Hd]|(e & ? & _ & -> & _)];
    [exact (dispatch_wf o c s0 _ s1 Hwf Hd)|done].
Qed.

Lemma star_wf s s' : wf s -> star step s s' -> wf s'.
Proof. intros Hwf Hs. exact (star_ind_inv step wf step_wf s s' Hs Hwf). Qed.

(** Rule induction for a property that steps preserve on well-formed
    storages. *)
Lemma star_wf_inv (P : Storage AccountId -> Prop) s s' :
  (forall a b, wf a -> P a -> step a b -> P b) ->
  wf s -> P s -> star step s s' -> wf s' /\ P s'.
Proof.
  intros HP Hwf HPs Hs.
  refine (star_ind_inv step (fun s => wf s /\ P s) _ s s' Hs (conj Hwf HPs)).
  intros a b [Ha Hb] Hab. split; [exact (step_wf a b Ha Hab)|exact (HP a b Ha Hb Hab)].
Qed.

(** C3: the invariant holds in every reachable state. *)
Theorem reachable_wf s : reachable s -> wf s.
Proof. intros Hr. eapply star_wf; eauto with pallet. Qed.

(** The three shapes of a step from a well-formed storage: nothing
    changed, a fighter with well-typed stats that passed the checks of the
    code was created at the counter, or an existing fighter changed
    hands. *)
Lemma step_cases s s' :
  wf s -> step s s' ->
  s' = s \/
  (exists who hp atk def t,
     stats_u16 hp atk def = true /\ power_total hp atk def = Some t /\ t <= 1000 /\
     def <= 50 /\ next_fighter_id s <> u32_MAX /\
     s' = created s who (next_fighter_id s) (MkFighter (hp, atk, def))) \/
  (exists id new_owner f, fighters id s = Some f /\ s' = transferred s id new_owner).
Proof.
  intros Hwf Hstep. destruct Hstep as [o c s0 r s1 Hwt Hap].
  destruct (apply_extrinsic_inv _ _ _ _ Hap) as [[_ Hd]|(e & ? & _ & -> & _)]; [|by left].
  right. destruct c as [hp atk def|]; simpl in Hd, Hwt.
  - apply create_ok_inv in Hd as (who & t & _ & ? & ? & ? & ? & ->); [|apply Hwf].
    left. exists who, hp, atk, def, t. done.
  - apply transfer_ok_inv in Hd as (? & f & _ & Hf & _ & ->). right. eauto.
Qed.

End Invariant.

(** The case analysis of [step_cases], with the facts of each case named. *)
Tactic Notation "inv_step" constr(Hwf) constr(Hstep) :=
  destruct (step_cases _ _ Hwf Hstep) as
    [->|[(?who & ?hp & ?atk & ?def & ?t & ?Hu & ?Ht & ?Htb & ?Hdb & ?Hm & ->)
        |(?id & ?new_owner & ?f & ?Hf & ->)]].

Section Consequences.
Context {AccountId : Type} `{!EqDecision AccountId}.
Context `{sem : ArithSem} `{!ArithSemLaws sem}.

Implicit Types (s : Storage AccountId).

Lemma step_next s s' :
  wf s -> step s s' ->
  next_fighter_id s' = next_fighter_id s \/ next_fighter_id s' = next_fighter_id s + 1.
Proof.
  intros Hwf Hs. inv_step Hwf Hs; [by left|by right|by left].
Qed.

Lemma step_fighters s s' : wf s -> step s s' -> Fighters s ⊆ Fighters s'.
Proof.
  intros Hwf Hs. inv_step Hwf Hs; [done| |done].
  apply insert_subseteq, eq_None_not_Some. rewrite wf_keys by done. lia.
Qed.

Lemma star_monotone_wf s s' :
  wf s -> star step s s' -> extends s s'.
Proof.
  intros Hwf Hs. revert Hwf. unfold extends.
  induction Hs as [|a b c Hab Hbc IH]; [done|]. intros Ha.
  destruct (IH (step_wf a b Ha Hab)) as [Hn HF].
  pose proof (step_next a b Ha Hab). split; [lia|].
  etrans; [eapply step_fighters|]; eauto.
Qed.

(** C15: along any run from a reachable storage the counter never
    decreases and no stored fighter is ever changed or removed (entries
    of [Fighters] are immutable, spec section 3). *)
Theorem star_monotone s s' :
  reachable s -> star step s s' -> extends s s'.
Proof. intros Hr. apply star_monotone_wf, (star_wf _ _ wf_genesis Hr). Qed.

(** C14: a successful [create] allocates the id held by the counter, which
    is free and strictly greater than every id issued before. *)
Theorem create_fresh o hp atk def s s' :
  wf s -> create o hp atk def s = (Ok tt, s') ->
  fighters (next_fighter_id s) s = None /\
  (forall k, is_Some (fighters k s) -> k < next_fighter_id s) /\
  fighters (next_fighter_id s) s' = Some (MkFighter (hp, atk, def)) /\
  next_fighter_id s' = next_fighter_id s + 1.
Proof.
  intros Hwf Hc. apply create_ok_inv in Hc as (? & ? & _ & _ & _ & _ & _ & ->); [|apply Hwf].
  unfold fighters. split_and!.
  - apply eq_None_not_Some. rewrite wf_keys by done. lia.
  - intros k. rewrite wf_keys by done. lia.
  - cbn [created Fighters]. by rewrite lookup_insert_eq.
  - done.
Qed.

(** A step from a storage whose counter is at [u32::MAX] keeps it there:
    [create] cannot succeed, [transfer] does not touch the counter. *)
Lemma step_exhausted s s' :
  exhausted s -> step s s' -> exhausted s'.
Proof.
  unfold exhausted. intros Hm Hstep. destruct Hstep as [o c s0 r s1 _ Hap].
  destruct (apply_extrinsic_inv _ _ _ _ Hap) as [[_ Hd]|(e & ? & _ & -> & _)]; [|done].
  destruct c; simpl in Hd.
  - apply create_ok_inv in Hd as (? & ? & _ & _ & _ & _ & Hne & _); [done|].
    by rewrite Hm.
  - by apply transfer_ok_inv in Hd as (? & ? & _ & _ & _ & ->).
Qed.

(** C16: exhaustion of the id space is permanent (spec section 9): from a
    storage whose counter is at [u32::MAX], every run keeps it there and
    every [create] with valid stats fails with [InvalidFighterId]. *)
Theorem exhaustion_permanent s s' who hp atk def :
  exhausted s -> star step s s' ->
  stats_u16 hp atk def = true -> valid_stats hp atk def = true ->
  exhausted s' /\
  create (Signed who) hp atk def s' = (Err (module_err InvalidFighterId), s').
Proof.
  intros Hm Hs Hu Hv.
  assert (Hm' : exhausted s') by exact (star_ind_inv _ _ step_exhausted s s' Hs Hm).
  split; [done|]. by apply create_exhausted.
Qed.
End Consequences.

#[export] Instance wf_dec {A} `{!EqDecision A} (s : Storage A) : Decision (wf s).
Proof. unfold wf. apply _. Defined.

(** ** Concrete instances *)

Lemma reachable_wf_witness : wf demo_storage.
Proof. apply (reachable_wf (sem := wrapping_sem)). apply demo_reachable_wrapping. Defined.

Lemma star_monotone_witness : extends (genesis (AccountId := nat)) demo_storage.
Proof.
  apply (star_monotone (sem := wrapping_sem)); [apply star_refl|].
  apply demo_reachable_wrapping.
Defined.

Lemma create_fresh_witness :
  let g : Storage nat := genesis in
  fighters (next_fighter_id g) g = None /\
  (forall k, is_Some (fighters k g) -> k < next_fighter_id g) /\
  fighters (next_fighter_id g) demo_storage = Some (MkFighter (500, 20, 10)) /\
  next_fighter_id demo_storage = next_fighter_id g + 1.
Proof.
  apply (create_fresh (sem := wrapping_sem) (Signed 1%nat)); [apply wf_genesis|reflexivity].
Defined.

(** A storage whose counter has reached [u32::MAX]. *)
Definition exhausted_storage : Storage nat := MkStorage (Some u32_MAX) ∅ ∅ [].

Lemma exhaustion_permanent_witness :
  exhausted exhausted_storage /\
  create (sem := wrapping_sem) (Signed 1%nat) 500 20 10 exhausted_storage =
    (Err (module_err InvalidFighterId), exhausted_storage).
Proof.
  apply (exhaustion_permanent (sem := wrapping_sem) exhausted_storage);
    [reflexivity|apply star_refl|reflexivity|reflexivity].
Defined.
