(* ===== verification/Events.v ===== *)
(** * The event log

    Every successful [create] deposits [FighterCreated(who, id, fighter)]
    (lib.rs line 85); [transfer] deposits nothing (the variant
    [FighterTransferred], line 59, is declared but never emitted).  The log
    is [Events] of [Storage], oldest first; a failed call's events are
    rolled back with its writes.

    [replay_fighters] and [replay_owners] rebuild the two maps from a log,
    the way an indexer listening to the chain does.  Theorems: the log is
    append-only with at most one event per applied extrinsic (spec section
    6), the [i]-th event is the creation of fighter [i] and replaying the
    log rebuilds [Fighters] exactly (the stored map is equivalent to the
    reference definition by replay), and, since transfers are silent, the
    log does not determine [FighterOwner]. *)

From S2P Require Import Prelude MachineInt Storage Pallet Executive Invariant.

Section Replay.
Context {AccountId : Type} `{!EqDecision AccountId}.

Implicit Types (evs : list (Event AccountId)).

Definition replay_fighter (m : gmap FighterIndex Fighter) (e : Event AccountId) :=
  match e with
  | FighterCreated _ id f => <[id := f]> m
  | FighterTransferred _ _ _ => m
  end.

Definition replay_owner (m : gmap FighterIndex AccountId) (e : Event AccountId) :=
  match e with
  | FighterCreated who id _ => <[id := who]> m
  | FighterTransferred _ to id => <[id := to]> m
  end.

(** The fighters an indexer knows of after reading the log. *)
Definition replay_fighters evs : gmap FighterIndex Fighter := foldl replay_fighter ∅ evs.

(** The owners an indexer knows of after reading the log. *)
Definition replay_owners evs : gmap FighterIndex AccountId := foldl replay_owner ∅ evs.

(** The [i]-th event of the log is the creation of fighter [i]. *)
Definition creation_log evs : Prop :=
  forall i e, evs !! i = Some e -> exists who f, e = FighterCreated who (Z.of_nat i) f.
End Replay.

Section EventFacts.
Context {AccountId : Type} `{!EqDecision AccountId}.
Context `{sem : ArithSem} `{!ArithSemLaws sem}.

Implicit Types (s : Storage AccountId).

Definition events_ok s : Prop :=
  replay_fighters (Events s) = Fighters s /\
  length (Events s) = Z.to_nat (next_fighter_id s) /\
  creation_log (Events s).

Lemma events_ok_genesis : events_ok (genesis (AccountId := AccountId)).
Proof. split_and!; [done|done|]. intros i e. cbn [genesis Events]. by rewrite lookup_nil. Qed.

Lemma creation_log_snoc (evs : list (Event AccountId)) who id f :
  id = Z.of_nat (length evs) -> creation_log evs ->
  creation_log (evs ++ [FighterCreated who id f]).
Proof.
  intros -> Hl i e [Hi|(Hi & He)]%lookup_app_Some; [by apply Hl|].
  apply list_lookup_singleton_Some in He as [Hi' <-].
  exists who, f. do 2 f_equal. lia.
Qed.

Lemma step_events_ok s s' : wf s -> events_ok s -> step s s' -> events_ok s'.
Proof.
  intros Hwf (HF & Hn & Hl) Hstep. pose proof (proj1 Hwf) as Hn32%is_u32_spec.
  inv_step Hwf Hstep; [by split_and!| |by split_and!].
  unfold events_ok. cbn [created Events Fighters].
  replace (next_fighter_id (created s who (next_fighter_id s) (MkFighter (hp, atk, def))))
    with (next_fighter_id s + 1) by reflexivity.
  split_and!.
  - unfold replay_fighters in *. by rewrite foldl_app, HF.
  - rewrite length_app, Hn. simpl. lia.
  - apply creation_log_snoc; [lia|done].
Qed.

Lemma star_events_ok s s' : wf s -> events_ok s -> star step s s' -> events_ok s'.
Proof.
  intros Hwf He Hs. exact (proj2 (star_wf_inv _ s s' step_events_ok Hwf He Hs)).
Qed.

(** C23: in every reachable storage the event log is the creation log:
    its [i]-th event is [FighterCreated] of fighter [i], there are as many
    events as ids issued, and replaying it rebuilds [Fighters] exactly. *)
Theorem reachable_events_replay s :
  reachable s ->
  replay_fighters (Events s) = Fighters s /\
  length (Events s) = Z.to_nat (next_fighter_id s) /\
  creation_log (Events s).
Proof. intros Hr. exact (star_events_ok _ _ wf_genesis events_ok_genesis Hr). Qed.

(** C24: from a reachable storage an applied extrinsic only appends to the
    log, and at most one event (spec section 6: "ordered, at most one per
    successful call"). *)
Theorem step_events_append_only s s' :
  reachable s -> step s s' ->
  exists l, Events s' = Events s ++ l /\ (length l <= 1)%nat /\
            (l <> [] -> exists who f, l = [FighterCreated who (next_fighter_id s) f]).
Proof.
  intros Hr Hstep. pose proof (star_wf _ _ wf_genesis Hr) as Hwf. inv_step Hwf Hstep.
  - exists []. rewrite app_nil_r. split_and!; [done|simpl; lia|done].
  - eexists. split_and!; [reflexivity|simpl; lia|]. intros _. eauto.
  - exists []. rewrite app_nil_r. split_and!; [done|simpl; lia|done].
Qed.
End EventFacts.

(** C25: because [transfer] is silent, the log does not determine the
    owners: after alice (1) creates fighter 0 and transfers it to bob (2),
    an indexer replaying the log still sees alice as the owner. *)
Theorem events_lose_owner :
  exists s : Storage nat, reachable (sem := wrapping_sem) s /\ replay_owners (Events s) <> FighterOwner s.
Proof.
  exists (snd (transfer (Signed 1%nat) 0 2%nat demo_storage)). split.
  - eapply star_trans; [apply demo_reachable_wrapping|]. apply star_one.
    eapply (step_extrinsic (Signed 1%nat) (transfer_call 0 2%nat)); reflexivity.
  - intros H. apply (f_equal (lookup 0)) in H. vm_compute in H. discriminate.
Qed.

(** ** Concrete instances *)

Lemma reachable_events_replay_witness :
  replay_fighters (Events demo_storage) = Fighters demo_storage /\
  length (Events demo_storage) = Z.to_nat (next_fighter_id demo_storage) /\
  creation_log (Events demo_storage).
Proof. apply (reachable_events_replay (sem := wrapping_sem)). apply demo_reachable_wrapping. Defined.

Lemma step_events_append_only_witness :
  exists l, Events demo_storage = Events (genesis (AccountId := nat)) ++ l /\ (length l <= 1)%nat /\
    (l <> [] -> exists who f, l = [FighterCreated who (next_fighter_id (genesis (AccountId := nat))) f]).
Proof.
  apply (step_events_append_only (sem := wrapping_sem)); [apply star_refl|].
  eapply (step_extrinsic (Signed 1%nat) (create_call 500 20 10)); reflexivity.
Defined.
