(* ===== verification/Runs.v ===== *)
(** * Runs: what can always happen, and what does not depend on order

    Properties of sequences of extrinsics rather than of one call:
    - liveness: from every reachable storage the id space can be used up
      ([can_exhaust]): as long as the counter is below [u32::MAX], any
      account can create a fighter (the stats [(0, 0, 0)] are always
      valid), so exhaustion, which [Invariant.exhaustion_permanent] shows
      to be terminal (spec section 9), is reachable and not dead code;
    - ordering: two transfers of different fighters give the same results
      and the same storage in either order within a block
      ([transfers_commute]); the host may serialise them either way
      (spec section 5); likewise a [create] and a transfer of an already
      issued fighter ([create_transfer_commute]): the new id does not
      depend on the transfer and the transfer's checks do not see the new
      entries;
    - totality of the executive in a release build: no call of the pallet
      panics when arithmetic wraps, so every block yields a result
      ([apply_block_wrapping_total]). *)

From S2P Require Import Prelude MachineInt Storage Pallet Executive Invariant.

Section Liveness.
Context {AccountId : Type} `{!EqDecision AccountId}.
Context `{sem : ArithSem} `{!ArithSemLaws sem}.

Implicit Types (s : Storage AccountId) (who : AccountId).

(** A valid creation below [u32::MAX] is a step. *)
Lemma step_create s who hp atk def :
  wf s -> stats_u16 hp atk def = true -> valid_stats hp atk def = true ->
  next_fighter_id s <> u32_MAX ->
  step s (created s who (next_fighter_id s) (MkFighter (hp, atk, def))).
Proof.
  intros Hwf Hu Hv Hm. pose proof Hu as (? & ? & ?)%stats_u16_spec.
  apply valid_stats_spec in Hv as [Hp Hd].
  eapply (step_extrinsic (Signed who) (create_call hp atk def)); [exact Hu|].
  unfold apply_extrinsic. cbn [fst snd dispatch]. rewrite create_eq by apply Hwf.
  cbn [ensure_signed]. rewrite power_total_exact by (unfold power, u16_modulus in *; lia).
  by rewrite (proj2 (Z.leb_le _ _) Hp), (proj2 (Z.leb_le _ _) Hd), (proj2 (Z.eqb_neq _ _) Hm).
Qed.

(** Induction on the number of ids left. *)
Lemma star_exhaust who n s :
  wf s -> Z.to_nat (u32_MAX - next_fighter_id s) = n -> exists s', star step s s' /\ exhausted s'.
Proof.
  revert s. induction n as [|n IH]; intros s Hwf Hn;
    pose proof (proj1 Hwf) as Hu%is_u32_spec; rewrite u32_MAX_eq in *.
  - exists s. split; [apply star_refl|]. unfold exhausted. rewrite u32_MAX_eq. lia.
  - assert (Hm : next_fighter_id s <> u32_MAX) by (rewrite u32_MAX_eq; lia).
    pose proof (step_create s who 0 0 0 Hwf eq_refl eq_refl Hm) as Hstep.
    destruct (IH _ (step_wf _ _ Hwf Hstep)) as (s' & Hs' & He).
    + change (next_fighter_id (created s who (next_fighter_id s) (MkFighter (0, 0, 0))))
        with (next_fighter_id s + 1). lia.
    + exists s'. split; [eapply star_step; eauto|done].
Qed.

(** C26: from every reachable storage a run that exhausts the id space
    exists (here: [who] creates fighters [(0, 0, 0)] until the counter
    reaches [u32::MAX]). *)
Theorem can_exhaust who s :
  reachable s -> exists s', star step s s' /\ exhausted s'.
Proof. intros Hr. exact (star_exhaust who _ s (star_wf _ _ wf_genesis Hr) eq_refl). Qed.
End Liveness.

Section Ordering.
Context {AccountId : Type} `{!EqDecision AccountId}.
Context `{sem : ArithSem}.

Implicit Types (s : Storage AccountId).

Lemma fighters_transferred id id' new_owner s :
  fighters id (transferred s id' new_owner) = fighters id s.
Proof. done. Qed.

Lemma fighter_owner_transferred_ne id id' new_owner s :
  id <> id' -> fighter_owner id (transferred s id' new_owner) = fighter_owner id s.
Proof. intros Hne. unfold fighter_owner. cbn. by rewrite lookup_insert_ne by congruence. Qed.

Lemma transferred_commute s id1 id2 a1 a2 :
  id1 <> id2 ->
  transferred (transferred s id1 a1) id2 a2 = transferred (transferred s id2 a2) id1 a1.
Proof. intros Hne. unfold transferred. cbn. f_equal. by apply insert_insert_ne. Qed.

(** The checks of [transfer], which decide its outcome. *)
Definition transfer_check (o : RawOrigin AccountId) id s : result DispatchError unit :=
  match ensure_signed o with
  | Err e => Err e
  | Ok who =>
      match fighters id s with
      | None => Err (Module InvalidFighterId)
      | Some _ => if bool_decide (fighter_owner id s = Some who) then Ok tt else Err (Module NotOwner)
      end
  end.

Lemma apply_extrinsic_transfer o id (a : AccountId) s :
  apply_extrinsic (o, transfer_call id a) s =
  Some (match transfer_check o id s with
        | Ok _ => (Ok tt, transferred s id a)
        | Err e => (Err e, s)
        end).
Proof.
  unfold apply_extrinsic, transfer_check. cbn [fst snd dispatch]. rewrite transfer_eq.
  destruct (ensure_signed o); [|done]. destruct (fighters id s); [|done]. by case_bool_decide.
Qed.

(** A transfer decides on the entries of its own fighter only. *)
Lemma transfer_check_transferred_ne o id id' (a : AccountId) s :
  id <> id' -> transfer_check o id (transferred s id' a) = transfer_check o id s.
Proof.
  intros Hne. unfold transfer_check.
  by rewrite fighters_transferred, fighter_owner_transferred_ne by done.
Qed.

(** C27: two transfers of different fighters commute: applied in either
    order within a block, each gets the same result and the final storage
    is the same. *)
Theorem transfers_commute o1 o2 id1 id2 (a1 a2 : AccountId) s :
  id1 <> id2 ->
  match apply_block [(o1, transfer_call id1 a1); (o2, transfer_call id2 a2)] s,
        apply_block [(o2, transfer_call id2 a2); (o1, transfer_call id1 a1)] s with
  | Some ([r1; r2], s12), Some ([r2'; r1'], s21) => r1 = r1' /\ r2 = r2' /\ s12 = s21
  | _, _ => False
  end.
Proof.
  intros Hne. cbn [apply_block]. rewrite !apply_extrinsic_transfer.
  destruct (transfer_check o1 id1 s) as [[]|e1] eqn:E1,
           (transfer_check o2 id2 s) as [[]|e2] eqn:E2;
    rewrite !apply_extrinsic_transfer, ?transfer_check_transferred_ne, ?E1, ?E2 by congruence;
    split_and!; auto using transferred_commute.
Qed.
(** The outcome [create] decides on: it reads the storage only through
    the counter. *)
Definition create_check (o : RawOrigin AccountId) hp atk def (n : FighterIndex)
  : option (result DispatchError AccountId) :=
  match ensure_signed o with
  | Err e => Some (Err e)
  | Ok who =>
      match power_total hp atk def with
      | None => None
      | Some total =>
          if total <=? 1000 then
            if def <=? 50 then
              if n =? u32_MAX then Some (Err (Module InvalidFighterId)) else Some (Ok who)
            else Some (Err (Module DefOverflow))
          else Some (Err (Module TotalOverflow))
      end
  end.

Context `{!ArithSemLaws sem}.

Lemma apply_extrinsic_create o hp atk def s :
  is_u32 (next_fighter_id s) = true ->
  apply_extrinsic (o, create_call hp atk def) s =
  match create_check o hp atk def (next_fighter_id s) with
  | None => None
  | Some (Err e) => Some (Err e, s)
  | Some (Ok who) => Some (Ok tt, created s who (next_fighter_id s) (MkFighter (hp, atk, def)))
  end.
Proof.
  intros Hn. unfold apply_extrinsic, create_check. cbn [fst snd dispatch].
  rewrite create_eq by done. destruct (ensure_signed o); [|done].
  destruct (power_total hp atk def) as [z|]; [|done].
  by destruct (z <=? 1000), (def <=? 50), (next_fighter_id s =? u32_MAX).
Qed.

Lemma transfer_check_created_ne o id s who n f :
  id <> n -> transfer_check o id (created s who n f) = transfer_check o id s.
Proof.
  intros Hne. unfold transfer_check, fighters, fighter_owner. cbn.
  by rewrite !lookup_insert_ne by congruence.
Qed.

Lemma created_transferred_commute s id (a : AccountId) who n f :
  id <> n -> transferred (created s who n f) id a = created (transferred s id a) who n f.
Proof. intros Hne. unfold transferred, created. cbn. f_equal. by apply insert_insert_ne. Qed.

(** C32: a [create] and a [transfer] of another fighter commute: in
    either order within a block they get the same results and leave the
    same storage (the new fighter's id does not depend on the transfer,
    and the transfer's checks do not see the new entries), or the block
    traps in both orders. *)
Theorem create_transfer_commute o1 o2 hp atk def id (a : AccountId) s :
  is_u32 (next_fighter_id s) = true -> id <> next_fighter_id s ->
  match apply_block [(o1, create_call hp atk def); (o2, transfer_call id a)] s,
        apply_block [(o2, transfer_call id a); (o1, create_call hp atk def)] s with
  | Some ([r1; r2], s12), Some ([r2'; r1'], s21) => r1 = r1' /\ r2 = r2' /\ s12 = s21
  | None, None => True
  | _, _ => False
  end.
Proof.
  intros Hn Hne. cbn [apply_block].
  rewrite (apply_extrinsic_create o1 _ _ _ s Hn), apply_extrinsic_transfer.
  destruct (transfer_check o2 id s) as [[]|e2] eqn:Et;
    rewrite ?(apply_extrinsic_create o1 hp atk def (transferred s id a)),
      ?(apply_extrinsic_create o1 hp atk def s) by exact Hn;
    change (next_fighter_id (transferred s id a)) with (next_fighter_id s);
    destruct (create_check o1 hp atk def (next_fighter_id s)) as [[w|e1]|] eqn:Ec;
    rewrite ?apply_extrinsic_transfer, ?transfer_check_created_ne, ?Et by done;
    cbn; try split_and!; auto using created_transferred_commute.
Qed.
End Ordering.

Section Totality.
Context {AccountId : Type} `{!EqDecision AccountId}.

Implicit Types (s : Storage AccountId).

(** C28: in a release build the executive never traps on this pallet:
    every block, whatever its extrinsics and the storage it starts from,
    is applied to the end and yields a result per extrinsic. *)
Theorem apply_block_wrapping_total (xts : list (Extrinsic AccountId)) s :
  exists rs s', apply_block (sem := wrapping_sem) xts s = Some (rs, s') /\ length rs = length xts.
Proof.
  revert s. induction xts as [|[o c] xts IH]; intros s; [by exists [], s|]. cbn [apply_block].
  unfold apply_extrinsic. cbn [fst snd].
  destruct (dispatch o c s) as [[[]|[e|]] s1] eqn:Ed;
    [| |by destruct (dispatch_wrapping_no_panic o c s s1)];
    [destruct (IH s1) as (rs & s' & -> & Hl)|destruct (IH s) as (rs & s' & -> & Hl)];
    eexists _, _; split; [reflexivity| |reflexivity|]; simpl; lia.
Qed.
End Totality.

(** ** Concrete instances *)

Lemma can_exhaust_witness :
  exists s', star (step (sem := checked_sem)) (genesis (AccountId := nat)) s' /\ exhausted s'.
Proof. apply (can_exhaust (sem := checked_sem) 1%nat). apply star_refl. Defined.

Lemma transfers_commute_witness :
  match apply_block (sem := wrapping_sem)
          [(Signed 1%nat, transfer_call 0 2%nat); (Signed 1%nat, transfer_call 1 3%nat)] demo_storage,
        apply_block (sem := wrapping_sem)
          [(Signed 1%nat, transfer_call 1 3%nat); (Signed 1%nat, transfer_call 0 2%nat)] demo_storage with
  | Some ([r1; r2], s12), Some ([r2'; r1'], s21) => r1 = r1' /\ r2 = r2' /\ s12 = s21
  | _, _ => False
  end.
Proof. apply transfers_commute. lia. Defined.

Lemma create_transfer_commute_witness :
  match apply_block (sem := wrapping_sem)
          [(Signed 2%nat, create_call 1 2 3); (Signed 1%nat, transfer_call 0 2%nat)] demo_storage,
        apply_block (sem := wrapping_sem)
          [(Signed 1%nat, transfer_call 0 2%nat); (Signed 2%nat, create_call 1 2 3)] demo_storage with
  | Some ([r1; r2], s12), Some ([r2'; r1'], s21) => r1 = r1' /\ r2 = r2' /\ s12 = s21
  | None, None => True
  | _, _ => False
  end.
Proof. apply (create_transfer_commute (sem := wrapping_sem)); [reflexivity|discriminate]. Defined.
