(* ===== verification/Ledger.v ===== *)
(** * The abstract ledger of the spec and the refinement theorem

    The spec (sections 3, 4 and 7) describes the registry abstractly: a
    sequence of (fighter, owner) pairs whose position is the id, an
    operation [spec_create] that checks the power budget and the defence
    cap on the true values and appends, and [spec_transfer] that checks
    existence and ownership and replaces the owner.  Its errors are the
    spec's taxonomy [SpecError].

    [refines s l] relates a storage of the pallet to a ledger: the counter
    is the length of the ledger (at most [u32::MAX]) and both storage maps
    are the ledger read at each id.  The refinement theorems state that,
    from related states, [create] and [transfer] succeed exactly when the
    spec's operations do, reach related states, and fail with an error the
    spec's error corresponds to ([err_refines]) without writing.

    For [create] this holds for every lawful integer semantics on inputs
    whose power formula does not wrap ([no_wrap]); under [checked_sem] (a
    debug build) every input satisfies [no_wrap], so the pallet refines the
    spec unconditionally there, a panic standing for [PowerBudgetExceeded].
    Under [wrapping_sem] it does not: see [Findings].  Lifted to runs:
    [step_no_wrap] is an applied extrinsic whose call does not wrap, and
    every run of such steps from genesis is simulated by the spec's
    transitions [spec_step], in both builds ([no_wrap_runs_refine]); every
    step of a debug build is one ([reachable_refines_checked]), and so is
    every block authored from such candidates under a weight limit
    ([authored_blocks_refine]). *)

From S2P Require Import Prelude MachineInt Storage Pallet Executive Invariant.

(** The error taxonomy of spec section 7. *)
Inductive SpecError :=
| PowerBudgetExceeded | DefenseCapExceeded | IdSpaceExhausted | UnknownFighter
| NotOwnerSpec.

(** Which error of the pallet may stand for which error of the spec. *)
Inductive err_refines : Exn -> SpecError -> Prop :=
| err_total : err_refines (module_err TotalOverflow) PowerBudgetExceeded
| err_panic : err_refines Panic PowerBudgetExceeded
| err_def : err_refines (module_err DefOverflow) DefenseCapExceeded
| err_exhausted : err_refines (module_err InvalidFighterId) IdSpaceExhausted
| err_unknown : err_refines (module_err InvalidFighterId) UnknownFighter
| err_owner : err_refines (module_err NotOwner) NotOwnerSpec.

#[export] Hint Constructors err_refines : pallet.

Section Ledger.
Context {AccountId : Type} `{!EqDecision AccountId}.

Abbreviation ledger := (list (Fighter * AccountId)).

Implicit Types (l : ledger) (s : Storage AccountId) (who : AccountId).

(** The entry at id [k]. *)
Definition ledger_lookup l (k : Z) : option (Fighter * AccountId) :=
  if decide (0 <= k) then l !! Z.to_nat k else None.

(** [create] of spec section 4.2, checks in the spec's order. *)
Definition spec_create who (hp atk def : Z) l : result SpecError (Z * ledger) :=
  if 1000 <? power hp atk def then Err PowerBudgetExceeded
  else if 50 <? def then Err DefenseCapExceeded
  else if Z.of_nat (length l) =? u32_MAX then Err IdSpaceExhausted
  else Ok (Z.of_nat (length l), l ++ [(MkFighter (hp, atk, def), who)]).

(** [transfer] of spec section 4.3. *)
Definition spec_transfer who (id : Z) (new_owner : AccountId) l : result SpecError ledger :=
  match ledger_lookup l id with
  | None => Err UnknownFighter
  | Some (f, owner) =>
      if decide (owner = who) then Ok (<[Z.to_nat id := (f, new_owner)]> l)
      else Err NotOwnerSpec
  end.

Definition refines s l : Prop :=
  next_fighter_id s = Z.of_nat (length l) /\ Z.of_nat (length l) <= u32_MAX /\
  (forall k, fighters k s = fst <$> ledger_lookup l k) /\
  (forall k, fighter_owner k s = snd <$> ledger_lookup l k).

Lemma ledger_lookup_snoc l x k :
  ledger_lookup (l ++ [x]) k =
    if decide (k = Z.of_nat (length l)) then Some x else ledger_lookup l k.
Proof.
  unfold ledger_lookup. repeat case_decide; subst; try lia; try done.
  - by rewrite Nat2Z.id, lookup_app_r, Nat.sub_diag by lia.
  - destruct (decide (Z.to_nat k < length l)%nat).
    + by rewrite lookup_app_l.
    + rewrite lookup_app_r by lia. rewrite !lookup_ge_None_2; try done.
      all: simpl; lia.
Qed.

Lemma ledger_lookup_insert l i x k :
  is_Some (ledger_lookup l i) ->
  ledger_lookup (<[Z.to_nat i := x]> l) k =
    if decide (k = i) then Some x else ledger_lookup l k.
Proof.
  unfold ledger_lookup. intros Hi. case_decide as Hi0; [|by destruct Hi].
  apply lookup_lt_is_Some in Hi.
  repeat case_decide; subst; try lia.
  - by rewrite list_lookup_insert_eq.
  - rewrite list_lookup_insert_ne; [done|lia].
  - done.
Qed.

Lemma refines_genesis : refines genesis [].
Proof.
  split_and!; [done|by rewrite u32_MAX_eq|..];
    intros k; unfold ledger_lookup; by case_decide.
Qed.

Lemma refines_wf s l : refines s l -> is_u32 (next_fighter_id s) = true.
Proof. intros (Hn & Hb & _). apply is_u32_spec. rewrite u32_MAX_eq in Hb. lia. Qed.

(** A storage related to a ledger, after the pallet's [create]
    bookkeeping, is related to the ledger extended by the new entry. *)
Lemma refines_created s l who f :
  refines s l -> next_fighter_id s <> u32_MAX ->
  refines (created s who (next_fighter_id s) f) (l ++ [(f, who)]).
Proof.
  intros (Hn & Hb & HF & HO) Hm. rewrite Hn in Hm |- *.
  unfold refines, fighters, fighter_owner, next_fighter_id in *.
  cbn [created NextFighterId Fighters FighterOwner default].
  rewrite length_app; simpl. split_and!; [lia|lia|..];
    intros k; rewrite ledger_lookup_snoc, lookup_insert;
    by repeat case_decide; subst; try lia.
Qed.

Lemma refines_transferred s l id f owner new_owner :
  refines s l -> ledger_lookup l id = Some (f, owner) ->
  refines (transferred s id new_owner) (<[Z.to_nat id := (f, new_owner)]> l).
Proof.
  intros (Hn & Hb & HF & HO) Hl.
  unfold refines, fighters, fighter_owner, next_fighter_id in *.
  cbn [transferred NextFighterId Fighters FighterOwner].
  rewrite length_insert. split_and!; [done|done|..];
    intros k; rewrite ledger_lookup_insert by (rewrite Hl; eauto); rewrite ?lookup_insert;
    repeat case_decide; subst; try lia; rewrite ?HF, ?HO, ?Hl; done.
Qed.
End Ledger.

(** The inputs on which the power formula of [create] does not wrap: it
    either panics or computes the true value. *)
Definition no_wrap `{ArithSem} (hp atk def : Z) : Prop :=
  power_total hp atk def = None \/ power_total hp atk def = Some (power hp atk def).

(** In a debug build no input wraps. *)
Lemma no_wrap_checked hp atk def :
  stats_u16 hp atk def = true -> no_wrap (H := checked_sem) hp atk def.
Proof.
  intros (? & ? & ?)%stats_u16_spec. unfold no_wrap.
  rewrite power_total_checked by lia. case_match; auto.
Qed.

Section Refinement.
Context {AccountId : Type} `{!EqDecision AccountId}.
Context `{sem : ArithSem} `{!ArithSemLaws sem}.

Implicit Types (l : list (Fighter * AccountId)) (s : Storage AccountId) (who : AccountId).

(** A panic of the power formula only happens above the budget. *)
Lemma power_total_None_gt hp atk def :
  stats_u16 hp atk def = true -> power_total hp atk def = None ->
  1000 < power hp atk def.
Proof.
  intros (? & ? & ?)%stats_u16_spec Hp.
  destruct (Z.lt_ge_cases (power hp atk def) u16_modulus) as [Hw|Hw].
  - rewrite power_total_exact in Hp by lia. done.
  - unfold u16_modulus in Hw. lia.
Qed.

Lemma create_sim who hp atk def s l :
  refines s l -> stats_u16 hp atk def = true -> no_wrap hp atk def ->
  match create (Signed who) hp atk def s, spec_create who hp atk def l with
  | (Ok _, s'), Ok (id, l') => id = next_fighter_id s /\ refines s' l'
  | (Err e, s'), Err e' => s' = s /\ err_refines e e'
  | _, _ => False
  end.
Proof.
  intros HR Hu Hnw. pose proof HR as (Hlen & Hb & _).
  rewrite create_eq by (by eapply refines_wf). unfold spec_create. cbn [ensure_signed].
  destruct Hnw as [Hp|Hp]; rewrite Hp.
  - rewrite (proj2 (Z.ltb_lt _ _) (power_total_None_gt _ _ _ Hu Hp)).
    split; [done|auto with pallet].
  - destruct (Z.leb_spec (power hp atk def) 1000), (Z.ltb_spec 1000 (power hp atk def));
      try lia; [|split; [done|auto with pallet]].
    destruct (Z.leb_spec def 50), (Z.ltb_spec 50 def); try lia; [|split; [done|auto with pallet]].
    rewrite Hlen. destruct (Z.eqb_spec (Z.of_nat (length l)) u32_MAX) as [|Hm];
      [split; [done|auto with pallet]|].
    split; [done|]. rewrite <- Hlen. apply refines_created; [done|by rewrite Hlen].
Qed.

Lemma transfer_sim who id new_owner s l :
  refines s l ->
  match transfer (Signed who) id new_owner s, spec_transfer who id new_owner l with
  | (Ok _, s'), Ok l' => refines s' l'
  | (Err e, s'), Err e' => s' = s /\ err_refines e e'
  | _, _ => False
  end.
Proof.
  intros HR. pose proof HR as (_ & _ & HF & HO). unfold spec_transfer.
  rewrite transfer_eq. cbn [ensure_signed]. rewrite HF, HO.
  destruct (ledger_lookup l id) as [[f owner]|] eqn:Hl; simpl; [|split; [done|auto with pallet]].
  case_bool_decide as Hw; case_decide; simplify_eq; [by eapply refines_transferred|..];
    [split; [done|auto with pallet]].
Qed.

(** C4: refinement of [create]: from related states, on inputs whose power
    does not wrap, the pallet's [create] and the spec's agree on success,
    on the id allocated and on the new state, and when they fail they fail
    with corresponding errors and the pallet writes nothing. *)
Theorem create_refines who hp atk def s l :
  refines s l -> stats_u16 hp atk def = true -> no_wrap hp atk def ->
  match create (Signed who) hp atk def s, spec_create who hp atk def l with
  | (Ok _, s'), Ok (id, l') => id = next_fighter_id s /\ refines s' l'
  | (Err e, s'), Err e' => s' = s /\ err_refines e e'
  | _, _ => False
  end.
Proof. apply create_sim. Qed.

(** C12: refinement of [transfer]: from related states the pallet's
    [transfer] and the spec's agree on success and on the new state, and
    fail together with corresponding errors, the pallet writing nothing. *)
Theorem transfer_refines who id new_owner s l :
  refines s l ->
  match transfer (Signed who) id new_owner s, spec_transfer who id new_owner l with
  | (Ok _, s'), Ok l' => refines s' l'
  | (Err e, s'), Err e' => s' = s /\ err_refines e e'
  | _, _ => False
  end.
Proof. apply transfer_sim. Qed.
End Refinement.

(** ** Runs *)

Section Runs.
Context {AccountId : Type} `{!EqDecision AccountId}.
Context `{sem : ArithSem} `{!ArithSemLaws sem}.

Implicit Types (l : list (Fighter * AccountId)) (s : Storage AccountId).

(** The spec's transitions: a successful [create] on u16 inputs, or a
    successful [transfer]. *)
Inductive spec_step : list (Fighter * AccountId) -> list (Fighter * AccountId) -> Prop :=
| spec_step_create who hp atk def l id l' :
    stats_u16 hp atk def = true ->
    spec_create who hp atk def l = Ok (id, l') -> spec_step l l'
| spec_step_transfer who id new_owner l l' :
    spec_transfer who id new_owner l = Ok l' -> spec_step l l'.

(** A call whose power formula does not wrap. *)
Definition no_wrap_call (c : Call AccountId) : Prop :=
  match c with
  | create_call hp atk def => no_wrap hp atk def
  | transfer_call _ _ => True
  end.

(** An applied extrinsic whose call does not wrap. *)
Inductive step_no_wrap : Storage AccountId -> Storage AccountId -> Prop :=
| step_no_wrap_intro o c s r s' :
    call_well_typed c = true -> no_wrap_call c ->
    apply_extrinsic (o, c) s = Some (r, s') -> step_no_wrap s s'.

(** One applied extrinsic that does not wrap is simulated by zero or one
    transition of the spec. *)
Lemma step_no_wrap_refines s s' l :
  refines s l -> step_no_wrap s s' ->
  refines s' l \/ exists l', spec_step l l' /\ refines s' l'.
Proof.
  intros HR Hstep. destruct Hstep as [o c s0 r s1 Hwt Hnw Hap].
  destruct (apply_extrinsic_inv _ _ _ _ Hap) as [[_ Hd]|(e & ? & _ & -> & _)];
    [|by left].
  cbn [fst snd] in Hd.
  destruct o as [|who|]; [by rewrite dispatch_bad_origin in Hd| |by rewrite dispatch_bad_origin in Hd].
  right. destruct c as [hp atk def|id new_owner]; simpl in Hd, Hwt, Hnw.
  - pose proof (create_sim who hp atk def s0 l HR Hwt Hnw) as H.
    rewrite Hd in H. destruct (spec_create who hp atk def l) as [[id l']|] eqn:Hs; [|done].
    exists l'. split; [by econstructor|apply H].
  - pose proof (transfer_sim who id new_owner s0 l HR) as H.
    rewrite Hd in H. destruct (spec_transfer who id new_owner l) as [l'|] eqn:Hs; [|done].
    exists l'. split; [by econstructor|apply H].
Qed.

Lemma star_no_wrap_refines s s' l :
  refines s l -> star step_no_wrap s s' -> exists l', star spec_step l l' /\ refines s' l'.
Proof.
  intros HR Hs. revert l HR. induction Hs as [a|a b c Hab Hbc IH]; intros l HR.
  - exists l. split; [apply star_refl|done].
  - destruct (step_no_wrap_refines a b l HR Hab) as [HR'|(l1 & Hl & HR')].
    + by apply IH.
    + destruct (IH l1 HR') as (l2 & ? & ?). exists l2. split; [|done].
      by eapply star_step.
Qed.

(** C19: block authoring composed with the refinement: from a storage
    related to a ledger, the block the author builds under any weight
    limit from candidates that are well typed and do not wrap (every
    candidate, in a debug build) leaves a storage related to a ledger the
    spec reaches by its own transitions; extrinsics left out for weight or
    dropped for trapping change nothing. *)
Theorem authored_blocks_refine base limit xts s l :
  Forall (fun xt => call_well_typed xt.2 = true /\ no_wrap_call xt.2) xts ->
  refines s l ->
  exists l', star spec_step l l' /\ refines (build_block base limit 0 xts s).2 l'.
Proof.
  intros Hxs HR. apply (star_no_wrap_refines s _ l HR).
  apply (build_block_star step_no_wrap (fun xt => call_well_typed xt.2 = true /\ no_wrap_call xt.2));
    [|done].
  intros [o c] s0 r s1 [Hwt Hnw] Hap. by eapply step_no_wrap_intro.
Qed.

(** C29: in either build profile, a run from genesis whose [create]
    calls do not wrap is simulated by the spec: the storage it reaches
    refines a ledger the spec reaches from the empty ledger.  In a release
    build this is the exact extent of the refinement: [wrapping_budget_violated]
    is a run with a wrapping call that leaves it. *)
Theorem no_wrap_runs_refine s :
  star step_no_wrap genesis s -> exists l, star spec_step [] l /\ refines s l.
Proof. intros Hs. exact (star_no_wrap_refines _ _ [] refines_genesis Hs). Qed.
End Runs.

(** In a debug build no applied extrinsic wraps. *)
Lemma step_checked_no_wrap {A} `{!EqDecision A} (s s' : Storage A) :
  step (sem := checked_sem) s s' -> step_no_wrap (sem := checked_sem) s s'.
Proof.
  intros [o c s0 r s1 Hwt Hap]. econstructor; [exact Hwt| |exact Hap].
  destruct c; simpl in *; [by apply no_wrap_checked|done].
Qed.

Section Checked.
Context {AccountId : Type} `{!EqDecision AccountId}.

(** C13: in a debug build every reachable storage is related to a ledger
    the spec can reach from the empty ledger: the pallet refines the
    spec's registry. *)
Theorem reachable_refines_checked (s : Storage AccountId) :
  reachable (sem := checked_sem) s ->
  exists l, star spec_step [] l /\ refines s l.
Proof.
  intros Hr. apply (star_no_wrap_refines (sem := checked_sem) _ _ [] refines_genesis).
  exact (star_mono _ _ step_checked_no_wrap _ _ Hr).
Qed.
End Checked.

(** ** Concrete instances *)

Lemma refines_demo : refines demo_storage [(demo_fighter, 1%nat)].
Proof.
  apply (refines_created genesis [] 1%nat demo_fighter refines_genesis).
  apply Z.eqb_neq. reflexivity.
Qed.

Lemma create_refines_witness :
  match create (sem := wrapping_sem) (Signed 1%nat) 500 20 10 genesis,
        spec_create 1%nat 500 20 10 [] with
  | (Ok _, s'), Ok (id, l') => id = next_fighter_id (genesis (AccountId := nat)) /\ refines s' l'
  | (Err e, s'), Err e' => s' = genesis /\ err_refines e e'
  | _, _ => False
  end.
Proof.
  apply (create_refines (sem := wrapping_sem) 1%nat 500 20 10 genesis []);
    [apply refines_genesis|reflexivity|right; reflexivity].
Defined.

Lemma transfer_refines_witness :
  match transfer (Signed 1%nat) 0 2%nat demo_storage,
        spec_transfer 1%nat 0 2%nat [(demo_fighter, 1%nat)] with
  | (Ok _, s'), Ok l' => refines s' l'
  | (Err e, s'), Err e' => s' = demo_storage /\ err_refines e e'
  | _, _ => False
  end.
Proof. apply transfer_refines, refines_demo. Defined.

Lemma reachable_refines_checked_witness :
  exists l, star spec_step [] l /\ refines demo_storage l.
Proof. apply reachable_refines_checked, demo_reachable_checked. Defined.

Lemma no_wrap_runs_refine_witness :
  exists l, star spec_step [] l /\ refines demo_storage l.
Proof.
  apply (no_wrap_runs_refine (sem := wrapping_sem)). apply star_one.
  eapply (step_no_wrap_intro (Signed 1%nat) (create_call 500 20 10));
    [reflexivity|right; reflexivity|reflexivity].
Defined.

Lemma authored_blocks_refine_witness :
  exists l', star spec_step [] l' /\
    refines (build_block (sem := checked_sem) 0 10000 0
               [(Signed 1%nat, create_call 500 20 10); (Signed 1%nat, create_call 0 0 0)]
               genesis).2 l'.
Proof.
  apply (authored_blocks_refine (sem := checked_sem)).
  - repeat constructor; right; reflexivity.
  - apply refines_genesis.
Defined.
