(* ===== verification/Findings.v ===== *)
(** * What the model shows about the code

    - The power check of [create] (lib.rs line 77) computes
      [hp + atk * 10 + def * 10] in [u16].  In a release build the sum
      wraps modulo [2^16] (see [Pallet.create_wrapping_accepts]), so with
      [atk = 6554] (power 65540, seen as 4) a reachable storage holds a
      fighter that breaks the creation rules ([wrapping_budget_violated]).
      In a debug build the same call panics instead
      ([checked_overflow_traps]); more generally an extrinsic traps
      exactly when it is a signed [create] whose true power does not fit
      in a [u16] ([checked_traps_iff]), and every reachable fighter respects the
      budget and the defence cap ([reachable_budget_checked]).
    - Lifted to blocks: a debug build rejects a block of well-typed
      extrinsics, applied to a well-formed storage, exactly when one of
      its extrinsics traps ([checked_block_traps_iff]); whatever precedes
      it in the block, the trap depends only on the call's arguments.

    [all_within_budget] is the predicate of spec section 3 on every stored
    fighter; it is decidable, so that it can be evaluated on a concrete
    storage. *)

From S2P Require Import Prelude MachineInt Storage Pallet Executive Invariant.

(** The creation rules of spec section 3, on a stored fighter. *)
Definition fighter_within_budget (f : Fighter) : bool :=
  let '(hp, atk, def) := fighter_dna f in stats_u16 hp atk def && valid_stats hp atk def.

Definition all_within_budget {A} (s : Storage A) : Prop :=
  map_Forall (fun _ f => fighter_within_budget f = true) (Fighters s).

#[export] Instance all_within_budget_dec {A} (s : Storage A) : Decision (all_within_budget s).
Proof. unfold all_within_budget. apply _. Defined.


Section Checked.
Context {AccountId : Type} `{!EqDecision AccountId}.

Implicit Types (s : Storage AccountId).

Lemma step_budget_checked s s' :
  wf s -> all_within_budget s -> step (sem := checked_sem) s s' -> all_within_budget s'.
Proof.
  intros Hwf Hb Hstep. inv_step Hwf Hstep; [done| |done].
  pose proof Hu as (? & ? & ?)%stats_u16_spec.
  rewrite power_total_checked in Ht by lia. case_match; simplify_eq.
  apply map_Forall_insert_2; [|done].
  unfold fighter_within_budget; cbn [fighter_dna]. rewrite Hu. by apply valid_stats_spec.
Qed.

(** C6: in a debug build every fighter of a reachable storage satisfies
    the creation rules of spec section 3 ([hp + atk*10 + def*10 <= 1000],
    [def <= 50], all [u16]). *)
Theorem reachable_budget_checked s :
  reachable (sem := checked_sem) s -> all_within_budget s.
Proof.
  intros Hr. apply (star_wf_inv _ genesis s step_budget_checked wf_genesis); [|done].
  apply map_Forall_empty.
Qed.
End Checked.


Section Traps.
Context {AccountId : Type} `{!EqDecision AccountId}.

Implicit Types (s : Storage AccountId) (xt : Extrinsic AccountId).

(** The extrinsics that trap in a debug build: a signed [create] whose
    true power does not fit in a [u16]. *)
Definition traps xt : Prop :=
  exists who hp atk def,
    xt.1 = Signed who /\ xt.2 = create_call hp atk def /\ u16_modulus <= power hp atk def.

Lemma apply_extrinsic_checked_None xt s :
  is_u32 (next_fighter_id s) = true -> call_well_typed xt.2 = true ->
  apply_extrinsic (sem := checked_sem) xt s = None <-> traps xt.
Proof.
  destruct xt as [o c]. unfold traps. cbn [fst snd]. intros Hn Hwt. unfold apply_extrinsic.
  cbn [fst snd]. destruct c as [hp atk def|id new_owner]; cbn [dispatch call_well_typed] in *.
  - rewrite create_eq by done. pose proof Hwt as (? & ? & ?)%stats_u16_spec.
    destruct o as [|who|]; cbn [ensure_signed];
      [split; [done|by intros (? & ? & ? & ? & ? & _)]| |split; [done|by intros (? & ? & ? & ? & ? & _)]].
    rewrite power_total_checked by lia.
    destruct (Z.ltb_spec (power hp atk def) u16_modulus).
    + split; [by repeat case_match|]. intros (? & ? & ? & ? & _ & [= <- <- <-] & ?). lia.
    + split; [|done]. intros _. by exists who, hp, atk, def.
  - rewrite transfer_eq. split; [by repeat case_match|by intros (? & ? & ? & ? & _ & ? & _)].
Qed.

(** C30: in a debug build an extrinsic traps exactly when it is a signed
    [create] whose true power [hp + atk*10 + def*10] does not fit in a
    [u16]: the origin check comes first, every other failure is a typed
    error, and [fighter_id + 1] never overflows on a [u32] counter. *)
Theorem checked_traps_iff o (c : Call AccountId) s :
  is_u32 (next_fighter_id s) = true -> call_well_typed c = true ->
  apply_extrinsic (sem := checked_sem) (o, c) s = None <->
  exists who hp atk def,
    o = Signed who /\ c = create_call hp atk def /\ u16_modulus <= power hp atk def.
Proof. intros Hn Hwt. exact (apply_extrinsic_checked_None (o, c) s Hn Hwt). Qed.

(** C31: in a debug build a block is rejected exactly when one of its
    extrinsics traps, wherever it stands and whatever the others did
    before it: the trap depends on the call alone, and every applied
    extrinsic keeps the storage well formed. *)
Theorem checked_block_traps_iff xts s :
  wf s -> Forall (fun xt => call_well_typed xt.2 = true) xts ->
  apply_block (sem := checked_sem) xts s = None <-> Exists traps xts.
Proof.
  intros Hwf Hxs. revert s Hwf. induction Hxs as [|xt rest Hxt _ IH]; intros s Hwf.
  - cbn. split; [done|]. by intros ?%Exists_nil.
  - cbn [apply_block]. rewrite Exists_cons.
    destruct (apply_extrinsic xt s) as [[r s1]|] eqn:E.
    + assert (Hnt : ~ traps xt).
      { rewrite <- (apply_extrinsic_checked_None xt s (proj1 Hwf) Hxt), E. done. }
      assert (Hwf1 : wf s1).
      { destruct xt as [o c]. exact (step_wf _ _ Hwf (step_extrinsic _ _ _ _ _ Hxt E)). }
      rewrite <- (IH s1 Hwf1). destruct (apply_block rest s1) as [[rs s2]|].
      * split; [done|by intros [?|?]].
      * split; [intros _; by right|done].
    + split; [intros _; left|done]. by apply (apply_extrinsic_checked_None xt s (proj1 Hwf) Hxt).
Qed.
End Traps.

(** ** Concrete runs, with accounts as natural numbers *)

Definition alice : nat := 1%nat.

(** C5: in a release build some reachable storage holds a fighter that
    breaks the creation rules: alice's [create(0, 6554, 0)] from genesis is
    accepted, with a true power of 65540. *)
Theorem wrapping_budget_violated :
  exists s : Storage nat, reachable (sem := wrapping_sem) s /\ ~ all_within_budget s.
Proof.
  exists (snd (create (sem := wrapping_sem) (Signed alice) 0 6554 0 genesis)). split.
  - apply star_one. eapply (step_extrinsic (Signed alice) (create_call 0 6554 0));
      reflexivity.
  - intros Hb. pose proof (Hb 0 (MkFighter (0, 6554, 0)) eq_refl) as H.
    vm_compute in H. discriminate.
Qed.

(** In a debug build the same call panics, so the extrinsic is not
    applied (the runtime traps instead of returning [TotalOverflow]); the
    concrete case of [checked_traps_iff] on the input of [wrapping_budget_violated]. *)
Theorem checked_overflow_traps :
  apply_extrinsic (sem := checked_sem) (Signed alice, create_call 0 6554 0) genesis = None /\
  create (sem := checked_sem) (Signed alice) 0 6554 0 genesis = (Err Panic, genesis).
Proof. split; reflexivity. Qed.

(** ** Concrete instances of the theorems above *)


Lemma reachable_budget_checked_witness : all_within_budget demo_storage.
Proof. apply reachable_budget_checked, demo_reachable_checked. Defined.




Lemma checked_traps_iff_witness :
  apply_extrinsic (sem := checked_sem) (Signed 1%nat, create_call 0 6554 0) genesis = None <->
  exists who hp atk def,
    Signed 1%nat = Signed who /\ create_call (AccountId := nat) 0 6554 0 = create_call hp atk def /\
    u16_modulus <= power hp atk def.
Proof. apply checked_traps_iff; reflexivity. Defined.

Lemma checked_block_traps_iff_witness :
  apply_block (sem := checked_sem)
    [(Signed 1%nat, create_call 500 20 10); (Signed 1%nat, create_call 0 6554 0)] genesis = None <->
  Exists traps [(Signed 1%nat, create_call (AccountId := nat) 500 20 10); (Signed 1%nat, create_call 0 6554 0)].
Proof. apply checked_block_traps_iff; [apply wf_genesis|repeat constructor]. Defined.
